(** * carla_bc: the CARLA connector helpers ([src/utils/carla_connector.py])

    A shallow embedding of the six helper functions of the connector
    module, over an explicit model of the simulator they talk to, and the
    properties of the module's specification proved (or refuted) on it.

    The Python functions are thin sequences of calls into the [carla]
    client library wrapped in [try]/[except].  They are embedded in a
    state-and-exception monad [M]: the state is the simulator together
    with what the process has printed, and a computation either returns
    a value or raises a Python exception.  The [carla] library itself is
    not part of the repository; its calls are modelled in the section
    "The simulator" from the library's documented behaviour, and every
    call can in addition fail on demand (a fault script), so that the
    theorems quantify over all patterns of failures and interrupts. *)

From Stdlib Require Import List String Ascii Bool Arith ZArith QArith Qround Lia DecimalString.
Import ListNotations.
Close Scope Q_scope.
Open Scope string_scope.
Open Scope list_scope.

(** ** Values *)

(** Python floats are only stored and passed along by this module, never
    computed with; rationals stand for them. *)
Definition float := Q.

Record Location := mkLocation { loc_x : float; loc_y : float; loc_z : float }.
Record Rotation := mkRotation { rot_pitch : float; rot_yaw : float; rot_roll : float }.
Record Transform := mkTransform { location : Location; rotation : Rotation }.

(** [carla.WorldSettings]: the time-stepping configuration of the world.
    An assignment to [synchronous_mode] stores the value.  An assignment
    to [fixed_delta_seconds] stores the value when it is above zero and
    [None], the variable time step, otherwise (as it does for a NaN,
    which the rationals used here for floats do not have). *)
Record WorldSettings := mkSettings {
  synchronous_mode : bool;
  no_rendering_mode : bool;
  fixed_delta_seconds : option float }.

Definition with_synchronous_mode (s : WorldSettings) (b : bool) : WorldSettings :=
  mkSettings b (no_rendering_mode s) (fixed_delta_seconds s).

Definition with_fixed_delta_seconds (s : WorldSettings) (x : float) : WorldSettings :=
  mkSettings (synchronous_mode s) (no_rendering_mode s)
             (if Qle_bool x 0 then None else Some x).

(** [carla.ActorBlueprint]: identified by a dotted id such as
    [vehicle.tesla.model3]; its tags are the components of the id. *)
Record Blueprint := mkBlueprint { bp_id : string }.

(** [carla.Actor] as the client holds it: a handle on an entity of the
    simulator. *)
Record Actor := mkActor { actor_id : nat; type_id : string }.

(** [carla.Client]: target host and port, and the time-out applied to the
    requests made through it. *)
Record Client := mkClient {
  client_host : string;
  client_port : Z;
  client_timeout : option float }.

(** [carla.World]: the handle on the scene of the simulator. *)
Inductive World : Type := WorldHandle.

(** [carla.Map]. *)
Inductive Map : Type := MapHandle.

(** ** Exceptions *)

(** [KeyboardInterrupt] and [SystemExit] derive from [BaseException]
    only; the others derive from [Exception], which is what the module's
    [except Exception] clauses catch. *)
Inductive exn :=
| KeyboardInterrupt
| SystemExit
| RuntimeError (msg : string)
| IndexError (msg : string)
| AttributeError (msg : string).

Definition is_Exception (e : exn) : bool :=
  match e with
  | KeyboardInterrupt | SystemExit => false
  | RuntimeError _ | IndexError _ | AttributeError _ => true
  end.

Definition is_KeyboardInterrupt (e : exn) : bool :=
  match e with KeyboardInterrupt => true | _ => false end.

(** [str(e)]. *)
Definition str (e : exn) : string :=
  match e with
  | KeyboardInterrupt | SystemExit => ""
  | RuntimeError m | IndexError m | AttributeError m => m
  end.

(** ** Wildcard matching

    [BlueprintLibrary.filter] and [ActorList.filter] match a wildcard
    pattern "following the fnmatch standard".  The fragment used here:
    [*] matches any run of characters, [?] any one character, every other
    character itself. *)
Fixpoint fnmatch (pat : string) : string -> bool :=
  match pat with
  | EmptyString => fun s => match s with EmptyString => true | _ => false end
  | String c pat' =>
      if Ascii.eqb c "*" then
        fix star (s : string) : bool :=
          fnmatch pat' s
          || match s with EmptyString => false | String _ s' => star s' end
      else fun s =>
        match s with
        | EmptyString => false
        | String d s' => (Ascii.eqb c "?" || Ascii.eqb c d) && fnmatch pat' s'
        end
  end.

(** The components of a dotted id. *)
Fixpoint split_dot (s : string) : list string :=
  match s with
  | EmptyString => [""]
  | String c s' =>
      if Ascii.eqb c "." then "" :: split_dot s'
      else match split_dot s' with
           | h :: t => String c h :: t
           | [] => [String c ""]
           end
  end.

Definition bp_tags (b : Blueprint) : list string := split_dot (bp_id b).

(** A blueprint matches a pattern when its id or one of its tags does. *)
Definition bp_matches (pattern : string) (b : Blueprint) : bool :=
  fnmatch pattern (bp_id b) || existsb (fnmatch pattern) (bp_tags b).

(** ** What the process prints *)

(** A printed line is the sequence of the pieces of its f-string; a float
    is kept as the value that is formatted. *)
Inductive segment :=
| Lit (s : string)
| FloatRepr (x : float).

Definition line := list segment.

(** ** The simulator *)

(** An entity of the scene, as the simulator holds it. *)
Record Entity := mkEntity {
  e_id : nat;
  e_type : string;
  e_parent : option nat;
  e_pose : Transform;
  e_autopilot : bool }.

Definition handle (e : Entity) : Actor := mkActor (e_id e) (e_type e).

Definition with_pose (e : Entity) (p : Transform) : Entity :=
  mkEntity (e_id e) (e_type e) (e_parent e) p (e_autopilot e).

Definition with_autopilot (e : Entity) (b : bool) : Entity :=
  mkEntity (e_id e) (e_type e) (e_parent e) (e_pose e) b.

(** The calls into the client library (and the two library calls of the
    follow loop, [Event.is_set] and [time.sleep]).  [CTick] is
    [world.tick()], which advances a world in synchronous mode. *)
Inductive call :=
| CClient (host : string) (port : Z)
| CSetTimeout (seconds : float)
| CGetWorld
| CGetSettings
| CApplySettings (s : WorldSettings)
| CTick
| CGetBlueprintLibrary
| CFilter (pattern : string)
| CFind (id : string)
| CGetMap
| CGetSpawnPoints
| CSpawnActor (bp : Blueprint) (tr : Transform) (attach_to : option Actor)
| CTrySpawnActor (bp : Blueprint) (tr : Transform)
| CGetActors
| CActorsFilter (pattern : string)
| CSetAutopilot (a : Actor) (enable : bool)
| CDestroy (a : Actor)
| CGetSpectator
| CGetTransform (a : Actor)
| CSetTransform (a : Actor) (tr : Transform)
| CIsSet
| CSleep (seconds : float).

(** What a call returned, as far as the properties below look at it. *)
Inductive retval :=
| RNone
| RBool (b : bool)
| RPose (p : Transform)
| RActor (a : option Actor)
| RSeq (n : nat).

Inductive event :=
| Called (c : call) (r : retval)
| Failed (c : call) (e : exn).

(** The part of the simulator this module cannot change: where it
    listens, its catalogue of blueprints, the spawn points of its map,
    its spectator, how it places an attached actor ([cfg_attach parent
    relative]), whether a spawn location is occupied ([cfg_collides]),
    and where its physics moves each actor at each instant ([cfg_motion
    instant id]; [None]: the actor stays where it is). *)
Record Config := mkConfig {
  cfg_host : string;
  cfg_port : Z;
  cfg_blueprints : list Blueprint;
  cfg_spawn_points : list Transform;
  cfg_spectator : nat;
  cfg_attach : Transform -> Transform -> Transform;
  cfg_collides : Transform -> list Entity -> bool;
  cfg_motion : nat -> nat -> option Transform }.

(** The state: the simulator ([sim_settings], [sim_actors],
    [sim_next_id]), the environment's script ([sim_faults]: whether the
    next calls fail, and with what; [sim_rng]: the next outcomes of the
    random generator), and what has been observed ([sim_trace]: the calls
    made, in order; [sim_log]: the lines printed). *)
Record Sim := mkSim {
  sim_cfg : Config;
  sim_settings : WorldSettings;
  sim_actors : list Entity;
  sim_next_id : nat;
  sim_faults : list (option exn);
  sim_rng : list nat;
  sim_trace : list event;
  sim_log : list line }.

Definition set_settings (s : WorldSettings) (w : Sim) : Sim :=
  mkSim (sim_cfg w) s (sim_actors w) (sim_next_id w) (sim_faults w)
        (sim_rng w) (sim_trace w) (sim_log w).

Definition set_actors (l : list Entity) (w : Sim) : Sim :=
  mkSim (sim_cfg w) (sim_settings w) l (sim_next_id w) (sim_faults w)
        (sim_rng w) (sim_trace w) (sim_log w).

Definition set_next_id (n : nat) (w : Sim) : Sim :=
  mkSim (sim_cfg w) (sim_settings w) (sim_actors w) n (sim_faults w)
        (sim_rng w) (sim_trace w) (sim_log w).

Definition set_faults (f : list (option exn)) (w : Sim) : Sim :=
  mkSim (sim_cfg w) (sim_settings w) (sim_actors w) (sim_next_id w) f
        (sim_rng w) (sim_trace w) (sim_log w).

Definition set_rng (r : list nat) (w : Sim) : Sim :=
  mkSim (sim_cfg w) (sim_settings w) (sim_actors w) (sim_next_id w)
        (sim_faults w) r (sim_trace w) (sim_log w).

Definition set_trace (t : list event) (w : Sim) : Sim :=
  mkSim (sim_cfg w) (sim_settings w) (sim_actors w) (sim_next_id w)
        (sim_faults w) (sim_rng w) t (sim_log w).

Definition set_log (l : list line) (w : Sim) : Sim :=
  mkSim (sim_cfg w) (sim_settings w) (sim_actors w) (sim_next_id w)
        (sim_faults w) (sim_rng w) (sim_trace w) l.

(** The logical clock: one instant per call. *)
Definition now (w : Sim) : nat := List.length (sim_trace w).

Definition record (ev : event) (w : Sim) : Sim :=
  set_trace (sim_trace w ++ [ev]) w.

(** One instant passes: the physics of the simulator moves the actors. *)
Definition move (cfg : Config) (t : nat) (e : Entity) : Entity :=
  match cfg_motion cfg t (e_id e) with
  | Some p => with_pose e p
  | None => e
  end.

Definition advance (w : Sim) : Sim :=
  set_actors (map (move (sim_cfg w) (now w)) (sim_actors w)) w.

(** ** The monad *)

Inductive Res (A : Type) :=
| Ok (a : A)
| Raise (e : exn).
Arguments Ok {A} a.
Arguments Raise {A} e.

Definition M (A : Type) : Type := Sim -> Res A * Sim.

Definition ret {A} (a : A) : M A := fun w => (Ok a, w).

Definition raise {A} (e : exn) : M A := fun w => (Raise e, w).

Definition bind {A B} (m : M A) (k : A -> M B) : M B :=
  fun w =>
    match m w with
    | (Ok a, w') => k a w'
    | (Raise e, w') => (Raise e, w')
    end.

Declare Scope py_scope.
Delimit Scope py_scope with py.
Notation "x <- c1 ;; c2" := (bind c1 (fun x => c2))
  (at level 61, c1 at next level, right associativity) : py_scope.
Notation "c1 ;; c2" := (bind c1 (fun _ => c2))
  (at level 61, right associativity) : py_scope.
Open Scope py_scope.

(** [try: m  except <class> as e: h e]: an exception of another class
    passes through. *)
Definition try_except {A} (m : M A) (catches : exn -> bool) (h : exn -> M A) : M A :=
  fun w =>
    match m w with
    | (Ok a, w') => (Ok a, w')
    | (Raise e, w') => if catches e then h e w' else (Raise e, w')
    end.

(** [print(...)]. *)
Definition print (l : line) : M unit :=
  fun w => (Ok tt, set_log (sim_log w ++ [l]) w).

(** A call that cannot fail: the instant passes, the call is served and
    recorded. *)
Definition observe {A} (c : call) (sem : Sim -> Res A * Sim) (view : A -> retval) : M A :=
  fun w =>
    match sem (advance w) with
    | (Ok a, w') => (Ok a, record (Called c (view a)) w')
    | (Raise e, w') => (Raise e, record (Failed c e) w')
    end.

(** A call into the client library: the next entry of the fault script
    decides whether it fails before being served.  A call that fails
    this way has had no effect on the simulator; that an interrupt may
    reach the program after the library has done its work is not
    modelled. *)
Definition next_fault (w : Sim) : option exn :=
  match sim_faults w with
  | Some e :: _ => Some e
  | _ => None
  end.

Definition pop_fault (w : Sim) : Sim := set_faults (tl (sim_faults w)) w.

Definition invoke {A} (c : call) (sem : Sim -> Res A * Sim) (view : A -> retval) : M A :=
  fun w =>
    match next_fault w with
    | Some e => (Raise e, record (Failed c e) (advance (pop_fault w)))
    | None => observe c sem view (pop_fault w)
    end.

(** ** The client library *)

Definition find_entity (id : nat) (w : Sim) : option Entity :=
  find (fun e => Nat.eqb (e_id e) id) (sim_actors w).

Definition update_entity (id : nat) (f : Entity -> Entity) (w : Sim) : Sim :=
  set_actors (map (fun e => if Nat.eqb (e_id e) id then f e else e) (sim_actors w)) w.

Definition remove_entity (id : nat) (w : Sim) : Sim :=
  set_actors (filter (fun e => negb (Nat.eqb (e_id e) id)) (sim_actors w)) w.

Definition destroyed {A} (w : Sim) : Res A * Sim :=
  (Raise (RuntimeError "trying to operate on a destroyed actor"), w).

(** [carla.Client(host, port)]: no connection is made yet.  Ports are
    taken to fit the 16 bits the library converts them to. *)
Definition carla_Client (host : string) (port : Z) : M Client :=
  invoke (CClient host port) (fun w => (Ok (mkClient host port None), w))
         (fun _ => RNone).

(** [client.set_timeout(seconds)]; the client object is updated. *)
Definition Client_set_timeout (client : Client) (seconds : float) : M Client :=
  invoke (CSetTimeout seconds)
         (fun w => (Ok (mkClient (client_host client) (client_port client) (Some seconds)), w))
         (fun _ => RNone).

(** What the library says when the simulator does not answer within
    the time-out of the client: the time-out in milliseconds (five
    seconds when none was set) and the address it tried. *)
Definition decimal (z : Z) : string := NilZero.string_of_int (Z.to_int z).

Definition timeout_message (client : Client) : string :=
  ("time-out of "
   ++ decimal (match client_timeout client with
               | Some seconds => Qfloor (Qmult seconds 1000%Q)
               | None => 5000%Z
               end)
   ++ "ms while waiting for the simulator, make sure the simulator is ready and connected to "
   ++ client_host client ++ ":" ++ decimal (client_port client))%string.

(** [client.get_world()]: answered only by a simulator listening at the
    client's host and port. *)
Definition Client_get_world (client : Client) : M World :=
  invoke CGetWorld
         (fun w =>
            if String.eqb (client_host client) (cfg_host (sim_cfg w))
               && Z.eqb (client_port client) (cfg_port (sim_cfg w))
            then (Ok WorldHandle, w)
            else (Raise (RuntimeError (timeout_message client)), w))
         (fun _ => RNone).

(** [world.get_settings()] and [world.apply_settings(settings)]. *)
Definition World_get_settings (world : World) : M WorldSettings :=
  invoke CGetSettings (fun w => (Ok (sim_settings w), w)) (fun _ => RNone).

Definition World_apply_settings (world : World) (settings : WorldSettings) : M unit :=
  invoke (CApplySettings settings) (fun w => (Ok tt, set_settings settings w))
         (fun _ => RNone).

(** [world.get_blueprint_library()], [library.filter(pattern)],
    [library.find(id)]. *)
Definition World_get_blueprint_library (world : World) : M (list Blueprint) :=
  invoke CGetBlueprintLibrary (fun w => (Ok (cfg_blueprints (sim_cfg w)), w))
         (fun l => RSeq (List.length l)).

Definition BlueprintLibrary_filter (library : list Blueprint) (pattern : string)
  : M (list Blueprint) :=
  invoke (CFilter pattern) (fun w => (Ok (filter (bp_matches pattern) library), w))
         (fun l => RSeq (List.length l)).

Definition BlueprintLibrary_find (library : list Blueprint) (id : string) : M Blueprint :=
  invoke (CFind id)
         (fun w =>
            match find (fun b => String.eqb (bp_id b) id) library with
            | Some b => (Ok b, w)
            | None => (Raise (IndexError "blueprint not found"), w)
            end)
         (fun _ => RNone).

(** [world.get_map()] and [map.get_spawn_points()]. *)
Definition World_get_map (world : World) : M Map :=
  invoke CGetMap (fun w => (Ok MapHandle, w)) (fun _ => RNone).

Definition Map_get_spawn_points (m : Map) : M (list Transform) :=
  invoke CGetSpawnPoints (fun w => (Ok (cfg_spawn_points (sim_cfg w)), w))
         (fun l => RSeq (List.length l)).

(** Placing a new entity: attached to a parent that must exist, or free
    at a location that must not be occupied. *)
Definition place (bp : Blueprint) (tr : Transform) (attach_to : option Actor) (w : Sim)
  : option (Actor * Sim) :=
  let create parent pose :=
    let e := mkEntity (sim_next_id w) (bp_id bp) parent pose false in
    Some (handle e, set_next_id (S (sim_next_id w)) (set_actors (sim_actors w ++ [e]) w)) in
  match attach_to with
  | Some parent =>
      match find_entity (actor_id parent) w with
      | Some p => create (Some (e_id p)) (cfg_attach (sim_cfg w) (e_pose p) tr)
      | None => None
      end
  | None =>
      if cfg_collides (sim_cfg w) tr (sim_actors w) then None else create None tr
  end.

(** [world.spawn_actor(blueprint, transform, attach_to)]: raises when the
    actor cannot be placed. *)
Definition World_spawn_actor (world : World) (bp : Blueprint) (tr : Transform)
    (attach_to : option Actor) : M Actor :=
  invoke (CSpawnActor bp tr attach_to)
         (fun w =>
            match place bp tr attach_to w with
            | Some (a, w') => (Ok a, w')
            | None => (Raise (RuntimeError "Spawn failed because of collision at spawn position"), w)
            end)
         (fun a => RActor (Some a)).

(** [world.try_spawn_actor(blueprint, transform)]: returns [None] when
    the actor cannot be placed. *)
Definition World_try_spawn_actor (world : World) (bp : Blueprint) (tr : Transform)
  : M (option Actor) :=
  invoke (CTrySpawnActor bp tr)
         (fun w =>
            match place bp tr None w with
            | Some (a, w') => (Ok (Some a), w')
            | None => (Ok None, w)
            end)
         RActor.

(** [world.get_actors()], [actors.filter(pattern)] (on the type id),
    [world.get_spectator()]. *)
Definition World_get_actors (world : World) : M (list Actor) :=
  invoke CGetActors (fun w => (Ok (map handle (sim_actors w)), w))
         (fun l => RSeq (List.length l)).

Definition ActorList_filter (actors : list Actor) (pattern : string) : M (list Actor) :=
  invoke (CActorsFilter pattern)
         (fun w => (Ok (filter (fun a => fnmatch pattern (type_id a)) actors), w))
         (fun l => RSeq (List.length l)).

Definition World_get_spectator (world : World) : M Actor :=
  invoke CGetSpectator
         (fun w =>
            match find_entity (cfg_spectator (sim_cfg w)) w with
            | Some e => (Ok (handle e), w)
            | None => destroyed w
            end)
         (fun a => RActor (Some a)).

(** [actor.set_autopilot(enable)], [actor.destroy()],
    [actor.get_transform()], [actor.set_transform(transform)]. *)
Definition Actor_set_autopilot (a : Actor) (enable : bool) : M unit :=
  invoke (CSetAutopilot a enable)
         (fun w =>
            match find_entity (actor_id a) w with
            | Some _ => (Ok tt, update_entity (actor_id a) (fun e => with_autopilot e enable) w)
            | None => destroyed w
            end)
         (fun _ => RNone).

Definition Actor_destroy (a : Actor) : M bool :=
  invoke (CDestroy a)
         (fun w =>
            match find_entity (actor_id a) w with
            | Some _ => (Ok true, remove_entity (actor_id a) w)
            | None => (Ok false, w)
            end)
         RBool.

Definition Actor_get_transform (a : Actor) : M Transform :=
  invoke (CGetTransform a)
         (fun w =>
            match find_entity (actor_id a) w with
            | Some e => (Ok (e_pose e), w)
            | None => destroyed w
            end)
         RPose.

Definition Actor_set_transform (a : Actor) (tr : Transform) : M unit :=
  invoke (CSetTransform a tr)
         (fun w =>
            match find_entity (actor_id a) w with
            | Some _ => (Ok tt, update_entity (actor_id a) (fun e => with_pose e tr) w)
            | None => destroyed w
            end)
         (fun _ => RNone).

(** ** The Python library *)

(** [threading.Event], seen from the thread that polls it: whether the
    flag is set at each instant, as the other threads drive it. *)
Definition Event := nat -> bool.

(** [stop_event.is_set()]: a read of the flag; it cannot fail. *)
Definition Event_is_set (ev : Event) : M bool :=
  observe CIsSet (fun w => (Ok (ev (now w)), w)) RBool.

(** [time.sleep(seconds)]: an interrupt can be delivered to it. *)
Definition time_sleep (seconds : float) : M unit :=
  invoke (CSleep seconds) (fun w => (Ok tt, w)) (fun _ => RNone).

(** [random._randbelow(n)]: the position below [n] that the next number
    [r] of the generator stands for. *)
Definition randbelow (n r : nat) : nat := r mod n.

(** [random.choice(seq)], that is [seq[_randbelow(len(seq))]]: the
    element at the position drawn; [IndexError] on an empty sequence,
    without drawing. *)
Definition random_choice {A} (seq : list A) : M A :=
  fun w =>
    match seq with
    | [] => (Raise (IndexError "Cannot choose from an empty sequence"), w)
    | x :: _ =>
        (Ok (nth (randbelow (List.length seq) (hd 0 (sim_rng w))) seq x),
         set_rng (tl (sim_rng w)) w)
    end.

(** [seq[0]]. *)
Definition index0 {A} (seq : list A) : M A :=
  match seq with
  | x :: _ => ret x
  | [] => raise (IndexError "index out of range")
  end.

(** [for x in seq: body]. *)
Fixpoint for_each {A} (seq : list A) (body : A -> M unit) : M unit :=
  match seq with
  | [] => ret tt
  | x :: rest => body x ;; for_each rest body
  end.

(** ** The connector module *)

(** The truth value of an optional string ([if vehicle_type:]) and of an
    optional list ([if vehicle_types:]): [None] and the empty one are
    false. *)
Definition truthy_str (s : option string) : bool :=
  match s with
  | Some (String _ _) => true
  | _ => false
  end.

Definition truthy_list {A} (l : option (list A)) : bool :=
  match l with
  | Some (_ :: _) => true
  | _ => false
  end.

(** [connect_to_carla(host, port, timeout, synchronous, fixed_delta_seconds)];
    the defaults of the last two are [False] and [0.05]. *)
Definition connect_to_carla (host : string) (port : Z) (timeout : float)
    (synchronous : bool) (fixed_delta_seconds : float)
  : M (option Client * option World) :=
  try_except
    (client <- carla_Client host port ;;
     client <- Client_set_timeout client timeout ;;
     world <- Client_get_world client ;;
     (if synchronous then
        settings <- World_get_settings world ;;
        let settings := with_synchronous_mode settings true in
        let settings := with_fixed_delta_seconds settings fixed_delta_seconds in
        World_apply_settings world settings ;;
        print [Lit "CARLA running in synchronous mode with ";
               FloatRepr fixed_delta_seconds; Lit "s fixed time step"]
      else ret tt) ;;
     ret (Some client, Some world))
    is_Exception
    (fun e =>
       print [Lit "Error connecting to Carla: "; Lit (str e)] ;;
       ret (None, None)).

Definition default_synchronous : bool := false.
Definition default_fixed_delta_seconds : float := 0.05%Q.

(** [spawn_vehicle(world, vehicle_type)]. *)
Definition spawn_vehicle (world : World) (vehicle_type : option string)
  : M (option Actor) :=
  try_except
    (blueprint_library <- World_get_blueprint_library world ;;
     vehicle_blueprint <-
       (if truthy_str vehicle_type then
          found <- BlueprintLibrary_filter blueprint_library
                     (match vehicle_type with Some t => t | None => "" end) ;;
          index0 found
        else
          found <- BlueprintLibrary_filter blueprint_library "vehicle" ;;
          random_choice found) ;;
     map_ <- World_get_map world ;;
     spawn_points <- Map_get_spawn_points map_ ;;
     spawn_point <- random_choice spawn_points ;;
     vehicle <- World_spawn_actor world vehicle_blueprint spawn_point None ;;
     ret (Some vehicle))
    is_Exception
    (fun e =>
       print [Lit "Error spawning vehicle: "; Lit (str e)] ;;
       ret None).

(** [[blueprint_library.filter(vehicle_type)[0] for vehicle_type in
    vehicle_types]]. *)
Fixpoint first_matches (blueprint_library : list Blueprint) (vehicle_types : list string)
  : M (list Blueprint) :=
  match vehicle_types with
  | [] => ret []
  | vehicle_type :: rest =>
      found <- BlueprintLibrary_filter blueprint_library vehicle_type ;;
      b <- index0 found ;;
      bs <- first_matches blueprint_library rest ;;
      ret (b :: bs)
  end.

(** One turn of the loop of [spawn_vehicles]: the inner [try]. *)
Definition spawn_attempt (world : World) (vehicle_blueprints : list Blueprint)
    (spawn_points : list Transform) : M unit :=
  try_except
    (bp <- random_choice vehicle_blueprints ;;
     sp <- random_choice spawn_points ;;
     World_try_spawn_actor world bp sp ;;
     ret tt)
    is_Exception
    (fun e => print [Lit "Error spawning vehicle: "; Lit (str e)]).

(** [for i in range(n): ...]. *)
Fixpoint spawn_attempts (n : nat) (world : World) (vehicle_blueprints : list Blueprint)
    (spawn_points : list Transform) : M unit :=
  match n with
  | O => ret tt
  | S n' =>
      spawn_attempt world vehicle_blueprints spawn_points ;;
      spawn_attempts n' world vehicle_blueprints spawn_points
  end.

(** [spawn_vehicles(world, num_vehicles, vehicle_types)]. *)
Definition spawn_vehicles (world : World) (num_vehicles : Z)
    (vehicle_types : option (list string)) : M unit :=
  try_except
    (blueprint_library <- World_get_blueprint_library world ;;
     vehicle_blueprints <-
       (if truthy_list vehicle_types then
          first_matches blueprint_library
            (match vehicle_types with Some l => l | None => [] end)
        else BlueprintLibrary_filter blueprint_library "*vehicle*") ;;
     map_ <- World_get_map world ;;
     spawn_points <- Map_get_spawn_points map_ ;;
     spawn_attempts (Z.to_nat num_vehicles) world vehicle_blueprints spawn_points)
    is_Exception
    (fun e => print [Lit "Error spawning vehicles: "; Lit (str e)]).


(** [destroy_actors(world)]. *)
Definition destroy_actors (world : World) : M unit :=
  try_except
    (actors <- World_get_actors world ;;
     for_each actors (fun actor => Actor_destroy actor ;; ret tt))
    is_Exception
    (fun e => print [Lit "Error destroying actors: "; Lit (str e)]).

(** [carla.Transform(carla.Location(x=-4, z=4), carla.Rotation(pitch=-25))]. *)
Definition camera_transform : Transform :=
  mkTransform (mkLocation (-4)%Q 0%Q 4%Q) (mkRotation (-25)%Q 0%Q 0%Q).

Inductive flow := Continue | Break.

(** One turn of the loop of [follow_vehicle]: the inner [try], that
    catches [KeyboardInterrupt] only. *)
Definition follow_iteration (spectator camera : Actor) (stop_event : option Event)
  : M flow :=
  try_except
    (stop <- (match stop_event with
              | Some ev => Event_is_set ev
              | None => ret false
              end) ;;
     if stop then ret Break
     else
       tr <- Actor_get_transform camera ;;
       Actor_set_transform spectator tr ;;
       time_sleep 0.01%Q ;;
       ret Continue)
    is_KeyboardInterrupt
    (fun _ =>
       print [Lit (String "010"%char "Camera follow interrupted by user")] ;;
       ret Break).

(** [while True: ...]: the loop need not end, so it runs on fuel;
    [None] is a loop still running when the fuel is spent. *)
Fixpoint follow_loop (fuel : nat) (spectator camera : Actor) (stop_event : option Event)
    (w : Sim) : option (Res unit * Sim) :=
  match fuel with
  | O => None
  | S fuel' =>
      match follow_iteration spectator camera stop_event w with
      | (Ok Continue, w') => follow_loop fuel' spectator camera stop_event w'
      | (Ok Break, w') => Some (Ok tt, w')
      | (Raise e, w') => Some (Raise e, w')
      end
  end.

(** The lines of [follow_vehicle] before its [try]. *)
Definition follow_setup (world : World) (vehicle : Actor) : M (Actor * Actor) :=
  spectator <- World_get_spectator world ;;
  blueprint_library <- World_get_blueprint_library world ;;
  camera_bp <- BlueprintLibrary_find blueprint_library "sensor.camera.rgb" ;;
  camera <- World_spawn_actor world camera_bp camera_transform (Some vehicle) ;;
  tr <- Actor_get_transform camera ;;
  Actor_set_transform spectator tr ;;
  ret (spectator, camera).

(** [follow_vehicle(world, vehicle, stop_event)]. *)
Definition follow_vehicle (fuel : nat) (world : World) (vehicle : Actor)
    (stop_event : option Event) (w : Sim) : option (Res unit * Sim) :=
  match follow_setup world vehicle w with
  | (Raise e, w') => Some (Raise e, w')
  | (Ok (spectator, camera), w') =>
      match follow_loop fuel spectator camera stop_event w' with
      | None => None
      | Some (Ok tt, w'') => Some (Ok tt, w'')
      | Some (Raise e, w'') =>
          if is_Exception e
          then Some (print [Lit "Error setting spectator transform: "; Lit (str e)] w'')
          else Some (Raise e, w'')
      end
  end.

(** ** A concrete simulator

    A small town used to run the module: four blueprints, two spawn
    points, a spectator; the vehicle with id 1 drives along the x axis
    and a camera with id 2 trails it. *)
Module Town.

Definition at_xyz (x y z : float) : Transform :=
  mkTransform (mkLocation x y z) (mkRotation 0%Q 0%Q 0%Q).

Definition Location_eqb (a b : Location) : bool :=
  Qeq_bool (loc_x a) (loc_x b) && Qeq_bool (loc_y a) (loc_y b)
  && Qeq_bool (loc_z a) (loc_z b).

Definition attach (parent relative : Transform) : Transform :=
  mkTransform
    (mkLocation (Qred (loc_x (location parent) + loc_x (location relative))%Q)
                (Qred (loc_y (location parent) + loc_y (location relative))%Q)
                (Qred (loc_z (location parent) + loc_z (location relative))%Q))
    (rotation relative).

Definition collides (tr : Transform) (es : list Entity) : bool :=
  existsb (fun e =>
             match e_parent e with
             | None => negb (String.eqb (e_type e) "spectator")
                       && Location_eqb (location (e_pose e)) (location tr)
             | Some _ => false
             end) es.

Definition motion (t id : nat) : option Transform :=
  if Nat.eqb id 1 then Some (at_xyz (inject_Z (Z.of_nat t)) 0%Q 0%Q)
  else if Nat.eqb id 2 then Some (attach (at_xyz (inject_Z (Z.of_nat t)) 0%Q 0%Q) camera_transform)
  else None.

Definition model3 : Blueprint := mkBlueprint "vehicle.tesla.model3".
Definition pedestrian : Blueprint := mkBlueprint "walker.pedestrian.0001".
Definition camera_rgb : Blueprint := mkBlueprint "sensor.camera.rgb".
Definition barrier : Blueprint := mkBlueprint "static.prop.vehiclebarrier".

Definition config : Config :=
  mkConfig "localhost" 2000%Z
           [model3; pedestrian; camera_rgb; barrier]
           [at_xyz 10%Q 0%Q 0%Q; at_xyz 20%Q 0%Q 0%Q]
           0 attach collides motion.

Definition spectator : Entity :=
  mkEntity 0 "spectator" None (at_xyz 0%Q 0%Q 50%Q) false.

Definition car : Entity :=
  mkEntity 1 "vehicle.tesla.model3" None (at_xyz 10%Q 0%Q 0%Q) false.

(** The town with its spectator alone, and with one car on the road. *)
Definition empty_town : Sim :=
  mkSim config (mkSettings false false None) [spectator] 1 [] [] [] [].

Definition one_car : Sim :=
  mkSim config (mkSettings false false None) [spectator; car] 2 [] [] [] [].

End Town.

(** ** Observations on a run *)

(** Every scheduled fault is a failure (an [Exception]), not an interrupt
    from outside the program. *)
Definition is_failure (f : option exn) : bool :=
  match f with
  | Some e => is_Exception e
  | None => true
  end.

Definition failures_only (w : Sim) : Prop :=
  forallb is_failure (sim_faults w) = true.

(** No fault is scheduled for the next [k] calls. *)
Definition is_quiet (f : option exn) : bool :=
  match f with
  | Some _ => false
  | None => true
  end.

Definition quiet (k : nat) (w : Sim) : Prop :=
  forallb is_quiet (firstn k (sim_faults w)) = true.

Definition is_called (ev : event) : bool :=
  match ev with
  | Called _ _ => true
  | Failed _ _ => false
  end.


(** The actors of the scene, as handles. *)
Definition scene (w : Sim) : list Actor := map handle (sim_actors w).

(** The lines the module prints. *)
Definition sync_line (x : float) : line :=
  [Lit "CARLA running in synchronous mode with "; FloatRepr x; Lit "s fixed time step"].

Definition connect_error_line (e : exn) : line :=
  [Lit "Error connecting to Carla: "; Lit (str e)].

Definition spawn_error_line (e : exn) : line :=
  [Lit "Error spawning vehicle: "; Lit (str e)].

Definition batch_error_line (e : exn) : line :=
  [Lit "Error spawning vehicles: "; Lit (str e)].


Definition destroy_error_line (e : exn) : line :=
  [Lit "Error destroying actors: "; Lit (str e)].

Definition follow_error_line (e : exn) : line :=
  [Lit "Error setting spectator transform: "; Lit (str e)].



(** The town when its server refuses the third call made to it. *)
Definition refusing_town : Sim :=
  set_faults [None; None; Some (RuntimeError "connection refused")] Town.empty_town.



(** Attempts of [spawn_vehicles], as a run shows them: an attempt either
    gets its [try_spawn_actor] served, or prints the per-attempt error
    line. *)
Definition is_spawn_try (ev : event) : bool :=
  match ev with
  | Called (CTrySpawnActor _ _) _ => true
  | _ => false
  end.

Definition is_spawn_error (l : line) : bool :=
  match l with
  | Lit s :: _ => String.eqb s "Error spawning vehicle: "
  | _ => false
  end.

Definition served_spawns (w : Sim) : nat :=
  List.length (filter is_spawn_try (sim_trace w)).

Definition logged_spawn_errors (w : Sim) : nat :=
  List.length (filter is_spawn_error (sim_log w)).

Definition attempts_made (w : Sim) : nat :=
  served_spawns w + logged_spawn_errors w.

(** The blueprint and spawn point of every [try_spawn_actor] issued,
    served or not. *)
Definition spawn_request (ev : event) : list (Blueprint * Transform) :=
  match ev with
  | Called (CTrySpawnActor b t) _ | Failed (CTrySpawnActor b t) _ => [(b, t)]
  | _ => []
  end.

Definition spawn_requests (evs : list event) : list (Blueprint * Transform) :=
  flat_map spawn_request evs.

(** The calls [spawn_vehicles] makes before its loop. *)
Definition setup_calls (vehicle_types : option (list string)) : nat :=
  if truthy_list vehicle_types
  then 3 + List.length (match vehicle_types with Some l => l | None => [] end)
  else 4.

(** Every listed type filter matches some blueprint of the library. *)
Definition resolves (library : list Blueprint) (vehicle_type : string) : bool :=
  match filter (bp_matches vehicle_type) library with
  | [] => false
  | _ :: _ => true
  end.

Definition all_resolve (library : list Blueprint) (vehicle_types : option (list string))
  : bool :=
  match vehicle_types with
  | Some l => forallb (resolves library) l
  | None => true
  end.

(** What a piece of code that neither prints nor spawns leaves alone. *)
Definition idle (w w' : Sim) : Prop :=
  sim_cfg w' = sim_cfg w /\ sim_log w' = sim_log w /\ scene w' = scene w /\
  sim_rng w' = sim_rng w /\
  exists evs, sim_trace w' = sim_trace w ++ evs /\
              filter is_spawn_try evs = [] /\ spawn_requests evs = [].

(** [b] is [library.filter(t)[0]]. *)
Definition first_match (library : list Blueprint) (t : string) (b : Blueprint) : Prop :=
  hd_error (filter (bp_matches t) library) = Some b.

(** The blueprints [spawn_vehicles] draws from. *)
Definition candidates (library : list Blueprint) (vehicle_types : option (list string))
    (bps : list Blueprint) : Prop :=
  if truthy_list vehicle_types
  then Forall2 (first_match library)
               (match vehicle_types with Some l => l | None => [] end) bps
  else bps = filter (bp_matches "*vehicle*") library.

(** The two ways a call of [spawn_vehicles] goes: stopped before its
    loop, the batch error printed and no spawn requested; or through the
    [n] turns of its loop. *)
Definition batch_aborted (w w' : Sim) : Prop :=
  scene w' = scene w /\
  (exists e, is_Exception e = true /\ sim_log w' = sim_log w ++ [batch_error_line e]) /\
  exists evs, sim_trace w' = sim_trace w ++ evs /\
              filter is_spawn_try evs = [] /\ spawn_requests evs = [].

Definition batch_ran (n : nat) (vehicle_types : option (list string)) (w w' : Sim) : Prop :=
  exists bps evs ls,
    candidates (cfg_blueprints (sim_cfg w)) vehicle_types bps /\
    sim_trace w' = sim_trace w ++ evs /\
    sim_log w' = sim_log w ++ ls /\
    List.length (filter is_spawn_try evs) + List.length (filter is_spawn_error ls) = n /\
    List.length (filter is_spawn_error ls) = List.length ls /\
    Forall (fun '(b, t) => In b bps /\ In t (cfg_spawn_points (sim_cfg w)))
           (spawn_requests evs) /\
    (cfg_spawn_points (sim_cfg w) = [] ->
     filter is_spawn_try evs = [] /\ scene w' = scene w).



(** The town after [spawn_vehicles(world, 3, ["model3", "nomatch"])]. *)
Definition after_bad_batch : Sim :=
  snd (spawn_vehicles WorldHandle 3 (Some ["model3"; "nomatch"]) Town.empty_town).

(** The town with a map without spawn points. *)
Definition no_spawn_points : Sim :=
  mkSim (mkConfig "localhost" 2000%Z
                  [Town.model3; Town.pedestrian; Town.camera_rgb; Town.barrier]
                  [] 0 Town.attach Town.collides Town.motion)
        (mkSettings false false None) [Town.spectator] 1
        [None; None; None; None; None; Some (RuntimeError "time-out")] [] [] [].







(** The entity with a given id is in the scene. *)
Definition alive (id : nat) (w : Sim) : Prop := find_entity id w <> None.

(** The checks of the stop signal in a trace, and the calls that did not
    return. *)
Definition is_poll (ev : event) : bool :=
  match ev with
  | Called CIsSet _ | Failed CIsSet _ => true
  | _ => false
  end.

Definition is_failed (ev : event) : bool := negb (is_called ev).

(** The calls of the lines of [follow_vehicle] before its loop, when
    they all return: [p] is the pose read from the new camera. *)
Definition setup_events (spectator vehicle camera : Actor) (camera_bp : Blueprint)
    (library_size : nat) (p : Transform) : list event :=
  [Called CGetSpectator (RActor (Some spectator));
   Called CGetBlueprintLibrary (RSeq library_size);
   Called (CFind "sensor.camera.rgb") RNone;
   Called (CSpawnActor camera_bp camera_transform (Some vehicle)) (RActor (Some camera));
   Called (CGetTransform camera) (RPose p);
   Called (CSetTransform spectator p) RNone].

(** The calls of one turn of the loop that runs to its end: the signal
    is found unset, the pose [p] read from the camera is given to the
    spectator, the thread sleeps. *)
Definition iteration_events (spectator camera : Actor) (p : Transform) : list event :=
  [Called CIsSet (RBool false);
   Called (CGetTransform camera) (RPose p);
   Called (CSetTransform spectator p) RNone;
   Called (CSleep 0.01%Q) RNone].

(** The same without a stop signal. *)
Definition blind_iteration_events (spectator camera : Actor) (p : Transform) : list event :=
  [Called (CGetTransform camera) (RPose p);
   Called (CSetTransform spectator p) RNone;
   Called (CSleep 0.01%Q) RNone].

(** The new camera of [follow_vehicle]. *)
Definition new_camera (camera_bp : Blueprint) (w : Sim) : Actor :=
  mkActor (sim_next_id w) (bp_id camera_bp).

(** A stop signal set from instant [t] on. *)
Definition set_from (t : nat) : Event := fun instant => Nat.leb t instant.



(** The town with one car, when the server times out on the fourth call
    made to it, and what is left of it after the setup of
    [follow_vehicle] has failed there. *)
Definition timing_out_town : Sim :=
  set_faults [None; None; None;
              Some (RuntimeError "time-out while waiting for the simulator")]
             Town.one_car.

Definition after_failed_setup : Sim :=
  snd (follow_setup WorldHandle (handle Town.car) timing_out_town).






(** The calls of [destroy_actors] that destroyed an actor. *)
Definition destroy_calls (l : list Actor) : list event :=
  map (fun a => Called (CDestroy a) (RBool true)) l.

(** The actors of the scene have distinct ids. *)
Definition distinct_ids (w : Sim) : Prop := NoDup (map actor_id (scene w)).

(** The town with one car, the server failing the second call. *)
Definition failing_destroy_town : Sim :=
  set_faults [None; Some (RuntimeError "time-out while waiting for the simulator")]
             Town.one_car.

(** The calls [connect_to_carla] makes when nothing stops it. *)
Definition connect_length (synchronous : bool) : nat := if synchronous then 5 else 3.

(** A fault script that lets [k] calls through and interrupts the next. *)
Definition interrupted_at (k : nat) (e : exn) (rest : list (option exn)) : list (option exn) :=
  repeat None k ++ Some e :: rest.

(** The town where the user interrupts the fourth call. *)
Definition interrupted_town : Sim :=
  set_faults (interrupted_at 3 KeyboardInterrupt []) Town.empty_town.

(** The pattern [spawn_vehicle] gives to the library: the type asked
    for, or the vehicle category when none is. *)
Definition spawn_pattern (vehicle_type : option string) : string :=
  match vehicle_type with
  | Some (String c s) => String c s
  | _ => "vehicle"
  end.

Definition collision : exn :=
  RuntimeError "Spawn failed because of collision at spawn position".

(** The town with one car and a generator that gives 0, 0, 5. *)
Definition parked_town : Sim := set_rng [0; 0; 5] Town.one_car.

(** The town with one car, the server failing the eighth call: the
    second of the loop of [follow_vehicle]. *)
Definition lost_camera_town : Sim :=
  set_faults (repeat None 7 ++ [Some (RuntimeError "trying to operate on a destroyed actor")])
             Town.one_car.

(** Where a failing call stopped [destroy_actors]: at the request for
    the actors, or at the [destroy()] of the actor at position [k], the
    [k] actors before it having been destroyed. *)
Definition destroy_stopped (w w' : Sim) (k : nat) (e : exn) : Prop :=
  (k = 0 /\ sim_trace w' = sim_trace w ++ [Failed CGetActors e])
  \/ (exists a, nth_error (scene w) k = Some a /\
        sim_trace w'
        = sim_trace w ++ Called CGetActors (RSeq (List.length (scene w)))
                      :: destroy_calls (firstn k (scene w)) ++ [Failed (CDestroy a) e]).

(** The answer of the library to [filter(t)]. *)
Definition filter_call (library : list Blueprint) (t : string) : event :=
  Called (CFilter t) (RSeq (List.length (filter (bp_matches t) library))).



(** The calls of [spawn_vehicles] before its loop, all served: the
    library is asked for each listed filter in turn, or for [*vehicle*]
    when none is listed, then the map for its spawn points. *)
Definition batch_setup (library : list Blueprint) (vehicle_types : option (list string))
    (spawn_points : list Transform) : list event :=
  Called CGetBlueprintLibrary (RSeq (List.length library))
  :: (if truthy_list vehicle_types
      then map (filter_call library)
               (match vehicle_types with Some l => l | None => [] end)
      else [filter_call library "*vehicle*"])
  ++ [Called CGetMap RNone; Called CGetSpawnPoints (RSeq (List.length spawn_points))].

(** How a turn of the loop of [spawn_vehicles] goes: its
    [try_spawn_actor] is served and gives an actor, or is served and
    gives [None], the place being taken; or it fails; or there was
    nothing to choose a blueprint or a spawn point from, and no call
    was made. *)
Inductive attempt :=
| Spawned (b : Blueprint) (sp : Transform) (vehicle : Actor)
| Occupied (b : Blueprint) (sp : Transform)
| Refused (b : Blueprint) (sp : Transform) (e : exn)
| NoChoice.

Definition no_choice : exn := IndexError "Cannot choose from an empty sequence".

(** The call a turn makes, the line it prints, the actor it adds. *)
Definition attempt_events (a : attempt) : list event :=
  match a with
  | Spawned b sp vehicle => [Called (CTrySpawnActor b sp) (RActor (Some vehicle))]
  | Occupied b sp => [Called (CTrySpawnActor b sp) (RActor None)]
  | Refused b sp e => [Failed (CTrySpawnActor b sp) e]
  | NoChoice => []
  end.

Definition attempt_lines (a : attempt) : list line :=
  match a with
  | Refused _ _ e => [spawn_error_line e]
  | NoChoice => [spawn_error_line no_choice]
  | Spawned _ _ _ | Occupied _ _ => []
  end.

Definition attempt_actors (a : attempt) : list Actor :=
  match a with
  | Spawned _ _ vehicle => [vehicle]
  | _ => []
  end.

(** A turn over the candidates [bps] and the spawn points [sps]. *)
Definition attempt_over (bps : list Blueprint) (sps : list Transform) (a : attempt) : Prop :=
  match a with
  | Spawned b sp vehicle => In b bps /\ In sp sps /\ type_id vehicle = bp_id b
  | Occupied b sp => In b bps /\ In sp sps
  | Refused b sp e => In b bps /\ In sp sps /\ is_Exception e = true
  | NoChoice => bps = [] \/ sps = []
  end.

(** The town when its server fails the third call made to it, and after
    [spawn_vehicles(world, 5)] there. *)
Definition lost_map_town : Sim :=
  set_faults [None; None; Some (RuntimeError "time-out")] Town.empty_town.

Definition after_lost_map : Sim :=
  snd (spawn_vehicles WorldHandle 5 None lost_map_town).



(** * Properties *)

(** ** Running the model symbolically *)

Lemma invoke_fault {A} c (sem : Sim -> Res A * Sim) view w e :
  next_fault w = Some e ->
  invoke c sem view w = (Raise e, record (Failed c e) (advance (pop_fault w))).
Proof. unfold invoke. intros ->. reflexivity. Qed.

Lemma invoke_served {A} c (sem : Sim -> Res A * Sim) view w :
  next_fault w = None ->
  invoke c sem view w = observe c sem view (pop_fault w).
Proof. unfold invoke. intros ->. reflexivity. Qed.

Lemma forallb_tl {A} (p : A -> bool) l : forallb p l = true -> forallb p (tl l) = true.
Proof.
  destruct l; simpl; auto. intros H. apply andb_true_iff in H. tauto.
Qed.

Lemma next_fault_is_failure w e :
  forallb is_failure (sim_faults w) = true -> next_fault w = Some e ->
  is_Exception e = true.
Proof.
  unfold next_fault. destruct (sim_faults w) as [|[x|] l]; simpl; try discriminate.
  intros H [= ->]. apply andb_true_iff in H. tauto.
Qed.

Lemma quiet_no_fault k w e :
  forallb is_quiet (firstn (S k) (sim_faults w)) = true ->
  next_fault w = Some e -> False.
Proof.
  unfold next_fault. destruct (sim_faults w) as [|[x|] l]; simpl; discriminate.
Qed.

Lemma quiet_tl k l :
  forallb is_quiet (firstn (S k) l) = true -> forallb is_quiet (firstn k (tl l)) = true.
Proof.
  destruct l as [|x l]; simpl.
  - destruct k; reflexivity.
  - intros H. apply andb_true_iff in H. tauto.
Qed.

Lemma map_handle_move cfg t l : map handle (map (move cfg t) l) = map handle l.
Proof.
  rewrite map_map. apply map_ext. intros e. unfold move.
  destruct (cfg_motion cfg t (e_id e)); reflexivity.
Qed.

Lemma random_choice_cases {A} (seq : list A) w :
  (seq = [] /\
   random_choice seq w = (Raise (IndexError "Cannot choose from an empty sequence"), w))
  \/ (exists x, In x seq /\ random_choice seq w = (Ok x, set_rng (tl (sim_rng w)) w)).
Proof.
  destruct seq as [|a l]; [left; auto|right].
  eexists. split; [|reflexivity].
  apply nth_In. apply Nat.mod_upper_bound. discriminate.
Qed.

Ltac monad :=
  cbv beta iota delta
    [bind ret raise try_except print observe index0
     carla_Client Client_set_timeout Client_get_world World_get_settings
     World_apply_settings World_get_blueprint_library BlueprintLibrary_filter
     BlueprintLibrary_find World_get_map Map_get_spawn_points World_spawn_actor
     World_try_spawn_actor World_get_actors ActorList_filter World_get_spectator
     Actor_set_autopilot Actor_destroy Actor_get_transform Actor_set_transform
     Event_is_set time_sleep destroyed].

Tactic Notation "proj" :=
  cbn [sim_trace sim_log sim_faults sim_cfg sim_settings sim_actors sim_next_id sim_rng
       record advance pop_fault set_log set_faults set_trace set_actors set_settings
       set_rng set_next_id update_entity remove_entity now fst snd].

Tactic Notation "proj" "in" hyp(H) :=
  cbn [sim_trace sim_log sim_faults sim_cfg sim_settings sim_actors sim_next_id sim_rng
       record advance pop_fault set_log set_faults set_trace set_actors set_settings
       set_rng set_next_id update_entity remove_entity now fst snd] in H.

(** Forgetting how a state was built: only its components, in terms of
    those of the state before, are kept. *)
Ltac forget W :=
  let w1 := fresh "w" in
  let Hw := fresh "Hw" in
  let Kcfg := fresh "Kcfg" in
  let Kset := fresh "Kset" in
  let Kact := fresh "Kact" in
  let Knid := fresh "Knid" in
  let Kflt := fresh "Kflt" in
  let Krng := fresh "Krng" in
  let Ktrc := fresh "Ktrc" in
  let Klog := fresh "Klog" in
  let Hf := fresh "Hf" in
  remember W as w1 eqn:Hw in *;
  pose proof (f_equal sim_cfg Hw) as Kcfg; proj in Kcfg;
  pose proof (f_equal sim_settings Hw) as Kset; proj in Kset;
  pose proof (f_equal sim_actors Hw) as Kact; proj in Kact;
  pose proof (f_equal sim_next_id Hw) as Knid; proj in Knid;
  pose proof (f_equal sim_faults Hw) as Kflt; proj in Kflt;
  pose proof (f_equal sim_rng Hw) as Krng; proj in Krng;
  pose proof (f_equal sim_trace Hw) as Ktrc; proj in Ktrc;
  pose proof (f_equal sim_log Hw) as Klog; proj in Klog;
  clear Hw;
  try (assert (Hf : forallb is_failure (sim_faults w1) = true)
         by (rewrite Kflt; repeat apply forallb_tl; assumption));
  try match type of Kflt with
      | _ = tl (sim_faults ?y) =>
          match goal with
          | Hq : forallb is_quiet (firstn (S ?k) (sim_faults y)) = true |- _ =>
              let Hq1 := fresh "Hq" in
              assert (Hq1 : forallb is_quiet (firstn k (sim_faults w1)) = true)
                by (rewrite Kflt; apply quiet_tl; exact Hq)
          end
      | _ = sim_faults ?y =>
          match goal with
          | Hq : forallb is_quiet (firstn ?k (sim_faults y)) = true |- _ =>
              let Hq1 := fresh "Hq" in
              assert (Hq1 : forallb is_quiet (firstn k (sim_faults w1)) = true)
                by (rewrite Kflt; exact Hq)
          end
      end.

(** A call that the script leaves alone does not fail. *)
Ltac quiet_absurd := exfalso; eapply quiet_no_fault; eassumption.

Ltac forget_state :=
  match goal with
  | |- context [invoke _ _ _ ?W] => tryif is_var W then fail else forget W
  | |- context [@random_choice _ _ ?W] => tryif is_var W then fail else forget W
  end.

(** Back to the components of the first state. *)
Ltac chase :=
  repeat match goal with
    | K : sim_cfg ?x = _ |- context [sim_cfg ?x] => rewrite K
    | K : sim_settings ?x = _ |- context [sim_settings ?x] => rewrite K
    | K : sim_actors ?x = _ |- context [sim_actors ?x] => rewrite K
    | K : sim_next_id ?x = _ |- context [sim_next_id ?x] => rewrite K
    | K : sim_rng ?x = _ |- context [sim_rng ?x] => rewrite K
    | K : sim_faults ?x = _ |- context [sim_faults ?x] => rewrite K
    | K : sim_trace ?x = _ |- context [sim_trace ?x] => rewrite K
    | K : sim_log ?x = _ |- context [sim_log ?x] => rewrite K
    | K : scene ?x = _ |- context [scene ?x] => rewrite K
    | K : scene ?x = _ |- context [map handle (sim_actors ?x)] =>
        change (map handle (sim_actors x)) with (scene x); rewrite K
    end.

(** One call: either the fault script makes it fail, or it is served. *)
Ltac step :=
  try forget_state;
  match goal with
  | |- context [invoke ?c ?sem ?view ?w] =>
      let e := fresh "e" in
      let E := fresh "E" in
      destruct (next_fault w) as [e|] eqn:E;
      [ rewrite (invoke_fault c sem view w e E)
      | rewrite (invoke_served c sem view w E) ]; monad
  end.

(** One draw. *)
Tactic Notation "draw" ident(x) ident(Hx) :=
  try forget_state;
  match goal with
  | |- context [@random_choice _ ?l ?w0] =>
      destruct (random_choice_cases l w0) as [[? ->]|(x & Hx & ->)]
  end.

(** The exception of a scheduled fault is caught by [except Exception]. *)
Ltac caught :=
  match goal with
  | E : next_fault ?w = Some ?e, Hf : forallb is_failure (sim_faults ?w) = true
    |- context [is_Exception ?e] =>
      let H := fresh "Hexc" in
      pose proof (next_fault_is_failure w e Hf E) as H; rewrite H
  end.

Ltac trace_eq := proj; chase; first [reflexivity | rewrite <- ?app_assoc; reflexivity].
Ltac log_eq :=
  proj; chase;
  first [ reflexivity
        | rewrite <- ?app_assoc;
          first [reflexivity | rewrite ?app_nil_r; reflexivity] ].
Ltac scene_eq :=
  unfold scene; proj; rewrite ?map_handle_move;
  repeat (progress (chase; unfold scene; rewrite ?map_handle_move));
  reflexivity.

Ltac here := simpl; auto 10.

(** ** [connect_to_carla] *)

Ltac connect_lost :=
  do 3 eexists; split; [reflexivity | split; [trace_eq |
    right; split; [reflexivity |
      eexists _, _; split; [ here | split; [ | log_eq];
                                    (eassumption || reflexivity) ]]]].

(** C5. Whatever calls fail, [connect_to_carla] returns: either both
    handles, and then no call failed and no error was printed, or the
    pair [(None, None)], and then a call failed and its cause was printed.
    Never one handle without the other, never an exception. *)
Theorem connect_to_carla_all_or_nothing host port timeout synchronous fds w :
  failures_only w ->
  exists r w' evs,
    connect_to_carla host port timeout synchronous fds w = (Ok r, w') /\
    sim_trace w' = sim_trace w ++ evs /\
    ((exists client world, r = (Some client, Some world) /\
        forallb is_called evs = true /\
        sim_log w' = sim_log w ++ (if synchronous then [sync_line fds] else []))
     \/ (r = (None, None) /\
         exists c e, In (Failed c e) evs /\ is_Exception e = true /\
            sim_log w' = sim_log w ++ [connect_error_line e])).
Proof.
  intros Hf. unfold failures_only in Hf. unfold connect_to_carla. monad.
  step; [caught; connect_lost|].
  step; [caught; connect_lost|].
  step; [caught; connect_lost|].
  destruct (_ && _); [|connect_lost].
  destruct synchronous.
  - step; [caught; connect_lost|].
    step; [caught; connect_lost|].
    do 3 eexists; split; [reflexivity | split; [trace_eq |]].
    left. do 2 eexists. split; [reflexivity|]. split; [reflexivity|]. log_eq.
  - do 3 eexists; split; [reflexivity | split; [trace_eq |]].
    left. do 2 eexists. split; [reflexivity|]. split; [reflexivity|]. log_eq.
Qed.

Lemma connect_to_carla_all_or_nothing_witness :
  failures_only refusing_town /\
  exists r w' evs,
    connect_to_carla "localhost" 2000 10%Q true 0.05%Q refusing_town = (Ok r, w') /\
    sim_trace w' = sim_trace refusing_town ++ evs /\
    ((exists client world, r = (Some client, Some world) /\
        forallb is_called evs = true /\
        sim_log w' = sim_log refusing_town ++ (if true then [sync_line 0.05%Q] else []))
     \/ (r = (None, None) /\
         exists c e, In (Failed c e) evs /\ is_Exception e = true /\
            sim_log w' = sim_log refusing_town ++ [connect_error_line e])).
Proof.
  split; [vm_compute; reflexivity|].
  apply (connect_to_carla_all_or_nothing "localhost" 2000 10%Q true 0.05%Q refusing_town).
  vm_compute; reflexivity.
Defined.





(** ** [spawn_vehicle] *)







(** ** [spawn_vehicles] *)

Ltac attempt_done :=
  split; [reflexivity|]; proj; chase;
  split; [repeat apply forallb_tl; assumption|];
  split; [reflexivity|];
  split; [rewrite ?app_nil_r, <- ?app_assoc; reflexivity|];
  split; [rewrite ?app_nil_r, <- ?app_assoc; reflexivity|];
  split; [reflexivity|];
  split; [reflexivity|];
  split; [simpl; repeat constructor; assumption|];
  let Hs := fresh "Hs" in
  intros Hs;
  first [ split; [reflexivity | scene_eq]
        | exfalso; rewrite Hs in *;
          match goal with H : In _ [] |- _ => destruct H end ].

Lemma spawn_attempt_spec world bps sps w :
  forallb is_failure (sim_faults w) = true ->
  exists w' evs ls,
    spawn_attempt world bps sps w = (Ok tt, w') /\
    forallb is_failure (sim_faults w') = true /\
    sim_cfg w' = sim_cfg w /\
    sim_trace w' = sim_trace w ++ evs /\
    sim_log w' = sim_log w ++ ls /\
    List.length (filter is_spawn_try evs) + List.length (filter is_spawn_error ls) = 1 /\
    filter is_spawn_error ls = ls /\
    Forall (fun '(b, t) => In b bps /\ In t sps) (spawn_requests evs) /\
    (sps = [] -> evs = [] /\ scene w' = scene w).
Proof.
  intros Hf. unfold spawn_attempt. monad.
  draw b Hb; [eexists _, [], [_]; attempt_done|].
  draw sp Hsp; [eexists _, [], [_]; attempt_done|].
  step; [caught; eexists _, [_], [_]; attempt_done|].
  unfold place. proj.
  destruct (cfg_collides _ _ _); eexists _, [_], []; attempt_done.
Qed.

Lemma spawn_attempts_spec world bps sps n : forall w,
  forallb is_failure (sim_faults w) = true ->
  exists w' evs ls,
    spawn_attempts n world bps sps w = (Ok tt, w') /\
    sim_cfg w' = sim_cfg w /\
    sim_trace w' = sim_trace w ++ evs /\
    sim_log w' = sim_log w ++ ls /\
    List.length (filter is_spawn_try evs) + List.length (filter is_spawn_error ls) = n /\
    filter is_spawn_error ls = ls /\
    Forall (fun '(b, t) => In b bps /\ In t sps) (spawn_requests evs) /\
    (sps = [] -> evs = [] /\ scene w' = scene w).
Proof.
  induction n as [|n IH]; intros w Hf; simpl spawn_attempts.
  - exists w, [], []. unfold ret. rewrite !app_nil_r. repeat split; auto.
  - unfold bind.
    destruct (spawn_attempt_spec world bps sps w Hf)
      as (w1 & evs1 & ls1 & -> & Hf1 & Hc1 & Ht1 & Hl1 & Hn1 & He1 & Hr1 & Hz1).
    destruct (IH w1 Hf1) as (w2 & evs2 & ls2 & -> & Hc2 & Ht2 & Hl2 & Hn2 & He2 & Hr2 & Hz2).
    exists w2, (evs1 ++ evs2), (ls1 ++ ls2).
    split; [reflexivity|].
    split; [congruence|].
    split; [rewrite Ht2, Ht1, app_assoc; reflexivity|].
    split; [rewrite Hl2, Hl1, app_assoc; reflexivity|].
    split; [rewrite !filter_app, !length_app; lia|].
    split; [rewrite filter_app; congruence|].
    split.
    + unfold spawn_requests in *. rewrite flat_map_app. apply Forall_app. auto.
    + intros Hs. destruct (Hz1 Hs) as [-> Hs1]. destruct (Hz2 Hs) as [-> Hs2].
      split; [reflexivity | congruence].
Qed.

Lemma idle_refl w : idle w w.
Proof.
  unfold idle. repeat split; auto. exists []. rewrite app_nil_r. auto.
Qed.

Lemma idle_trans w1 w2 w3 : idle w1 w2 -> idle w2 w3 -> idle w1 w3.
Proof.
  intros (Hc1 & Hl1 & Hs1 & Hr1 & evs1 & Ht1 & Hy1 & Hq1)
         (Hc2 & Hl2 & Hs2 & Hr2 & evs2 & Ht2 & Hy2 & Hq2).
  unfold idle. repeat split; try congruence.
  exists (evs1 ++ evs2). split; [rewrite Ht2, Ht1, app_assoc; reflexivity|].
  unfold spawn_requests in *. rewrite filter_app, flat_map_app, Hy1, Hy2, Hq1, Hq2. auto.
Qed.

(** A call that is not a spawn and leaves the scene alone is idle. *)
Lemma idle_call ev w :
  is_spawn_try ev = false -> spawn_request ev = [] ->
  idle w (record ev (advance (pop_fault w))).
Proof.
  intros Hy Hq. unfold idle. proj. repeat split; auto.
  - unfold scene. proj. apply map_handle_move.
  - exists [ev]. split; [reflexivity|]. simpl. rewrite Hy, Hq. auto.
Qed.

Lemma first_matches_spec lib l : forall w,
  forallb is_failure (sim_faults w) = true ->
  exists r w',
    first_matches lib l w = (r, w') /\
    idle w w' /\
    forallb is_failure (sim_faults w') = true /\
    match r with
    | Ok bs => Forall2 (first_match lib) l bs /\
               sim_faults w' = skipn (List.length l) (sim_faults w)
    | Raise e => is_Exception e = true
    end /\
    (forallb is_quiet (firstn (List.length l) (sim_faults w)) = true ->
     forallb (resolves lib) l = true -> exists bs, r = Ok bs).
Proof.
  induction l as [|t l IH]; intros w Hf; simpl first_matches.
  - exists (Ok []), w. unfold ret.
    split; [reflexivity|]. split; [apply idle_refl|]. split; [assumption|].
    split; [split; [constructor | reflexivity]|]. eauto.
  - monad. step.
    { eexists _, _. split; [reflexivity|]. split; [apply idle_call; reflexivity|].
      proj. split; [apply forallb_tl; assumption|].
      split; [eapply next_fault_is_failure; eassumption|].
      intros Hq _. exfalso. eapply quiet_no_fault; eassumption. }
    destruct (filter (bp_matches t) lib) as [|b bs] eqn:Hm.
    { eexists _, _. split; [reflexivity|]. split; [apply idle_call; reflexivity|].
      proj. split; [apply forallb_tl; assumption|].
      split; [reflexivity|].
      intros _ Hr. simpl in Hr. unfold resolves in Hr. rewrite Hm in Hr. discriminate. }
    match goal with
    | |- context [first_matches lib l ?W] =>
        assert (Hi : idle w W) by (apply idle_call; reflexivity);
        assert (HW : sim_faults W = tl (sim_faults w)) by reflexivity;
        assert (HfW : forallb is_failure (sim_faults W) = true)
          by (rewrite HW; apply forallb_tl; assumption);
        destruct (IH W HfW) as (r & w' & -> & Hi' & Hf' & Hr & Hq);
        clearbody W || idtac
    end.
    destruct r as [bs'|e].
    + eexists _, _. split; [reflexivity|]. split; [eapply idle_trans; eassumption|].
      split; [assumption|]. destruct Hr as [HF Hs]. split.
      * split; [constructor; [unfold first_match; rewrite Hm; reflexivity | assumption]|].
        rewrite Hs, HW. destruct (sim_faults w); [destruct (List.length l)|]; reflexivity.
      * eauto.
    + eexists _, _. split; [reflexivity|]. split; [eapply idle_trans; eassumption|].
      split; [assumption|]. split; [assumption|].
      intros Hq1 Hr1. simpl in Hr1. apply andb_true_iff in Hr1.
      destruct Hq as [bs' Hbs]; [|tauto|discriminate].
      rewrite HW. apply quiet_tl. exact Hq1.
Qed.

Lemma quiet_le k k' l :
  k <= k' -> forallb is_quiet (firstn k' l) = true -> forallb is_quiet (firstn k l) = true.
Proof.
  revert k k'. induction l as [|x l IH]; intros k k' Hk.
  - rewrite !firstn_nil. auto.
  - destruct k as [|k]; [reflexivity|]. destruct k' as [|k']; [lia|]. simpl.
    intros H. apply andb_true_iff in H. destruct H as [-> H]. simpl.
    apply (IH k k'); [lia | exact H].
Qed.

Lemma quiet_skipn k n l :
  forallb is_quiet (firstn (k + n) l) = true ->
  forallb is_quiet (firstn k (skipn n l)) = true.
Proof.
  revert l. induction n as [|n IH]; intros l.
  - rewrite Nat.add_0_r. auto.
  - rewrite Nat.add_succ_r. destruct l as [|x l].
    + simpl. rewrite firstn_nil. reflexivity.
    + simpl. intros H. apply andb_true_iff in H. apply IH. tauto.
Qed.

Lemma first_match_resolves lib l bps :
  Forall2 (first_match lib) l bps -> forallb (resolves lib) l = true.
Proof.
  induction 1 as [|t b l bps Hm _ IH]; [reflexivity|]. simpl. rewrite IH.
  unfold first_match in Hm. unfold resolves.
  destruct (filter (bp_matches t) lib); [discriminate | reflexivity].
Qed.

(** Using what idle pieces of a trace contribute. *)
Ltac use_idle :=
  unfold spawn_requests;
  rewrite ?filter_app, ?flat_map_app; simpl;
  repeat match goal with
    | H : filter is_spawn_try ?e = [] |- context [filter is_spawn_try ?e] => rewrite H
    | H : spawn_requests ?e = [] |- context [flat_map spawn_request ?e] =>
        change (flat_map spawn_request e) with (spawn_requests e); rewrite H
    end;
  simpl.

Ltac is_aborted :=
  split; [scene_eq|];
  split; [eexists; split; [|log_eq]; (eassumption || reflexivity)|];
  eexists; split; [trace_eq | split; use_idle; reflexivity].

Ltac aborted :=
  eexists; split; [reflexivity|]; split; [left; is_aborted | intros _; is_aborted].

(** The loop, once the candidates and the spawn points are there. *)
Ltac run_loop :=
  try match goal with
    | |- context [spawn_attempts _ _ _ _ ?W] => tryif is_var W then fail else forget W
    end;
  proj; chase;
  match goal with
  | Hf : forallb is_failure (sim_faults ?x) = true
    |- context [spawn_attempts ?n ?wd ?bps ?sps ?x] =>
      let w' := fresh "w'" in
      let evs := fresh "evs" in
      let ls := fresh "ls" in
      let Heq := fresh "Heq" in
      destruct (spawn_attempts_spec wd bps sps n x Hf)
        as (w' & evs & ls & Heq & Hc & Ht & Hl & Hn & He & Hr & Hz);
      rewrite Heq; clear Heq
  end.

Ltac is_ran Hcand :=
  eexists _, _, _; split; [exact Hcand|];
  split; [trace_eq|];
  split; [log_eq|];
  split; [use_idle; eassumption|];
  split; [match goal with
          | H : filter is_spawn_error ?ls = ?ls |- _ => rewrite H; reflexivity
          end|];
  split; [use_idle; eassumption|];
  let Hs := fresh "Hs" in
  let Hscene := fresh "Hscene" in
  intros Hs;
  match goal with
  | H : _ = [] -> _ = [] /\ _ |- _ => destruct (H Hs) as [-> Hscene]
  end;
  split; [use_idle; reflexivity | rewrite Hscene; scene_eq].

Lemma spawn_vehicles_outcome world n types w :
  forallb is_failure (sim_faults w) = true ->
  exists w',
    spawn_vehicles world n types w = (Ok tt, w') /\
    (batch_aborted w w' \/ batch_ran (Z.to_nat n) types w w') /\
    (all_resolve (cfg_blueprints (sim_cfg w)) types = false -> batch_aborted w w').
Proof.
  intros Hf. unfold spawn_vehicles.
  destruct types as [[|t l]|]; cbn [truthy_list]; monad.
  - step; [caught; aborted|].
    step; [caught; aborted|].
    step; [caught; aborted|].
    step; [caught; aborted|].
    run_loop.
    eexists; split; [reflexivity|]. split; [right|discriminate].
    assert (Hcand : candidates (cfg_blueprints (sim_cfg w)) (Some [])
                      (filter (bp_matches "*vehicle*") (cfg_blueprints (sim_cfg w))))
      by reflexivity.
    is_ran Hcand.
  - step; [caught; aborted|].
    match goal with
    | |- context [first_matches _ _ ?W] => forget W
    end.
    proj. chase.
    match goal with
    | Hf : forallb is_failure (sim_faults ?x) = true
      |- context [first_matches ?lib ?tl ?x] =>
        destruct (first_matches_spec lib tl x Hf)
          as (r & w1 & Heq & (Hc1 & Hl1 & Hs1 & Hg1 & evs1 & Ht1 & Hy1 & Hq1) & Hf1 & Hr & _);
        rewrite Heq; clear Heq
    end.
    destruct r as [bps|e]; [|rewrite Hr; aborted].
    destruct Hr as [Hcand _].
    step; [caught; aborted|].
    step; [caught; aborted|].
    run_loop.
    eexists; split; [reflexivity|]. split; [right|].
    + is_ran Hcand.
    + intros Hu. unfold all_resolve in Hu.
      rewrite (first_match_resolves _ _ _ Hcand) in Hu. discriminate.
  - step; [caught; aborted|].
    step; [caught; aborted|].
    step; [caught; aborted|].
    step; [caught; aborted|].
    run_loop.
    eexists; split; [reflexivity|]. split; [right|discriminate].
    assert (Hcand : candidates (cfg_blueprints (sim_cfg w)) None
                      (filter (bp_matches "*vehicle*") (cfg_blueprints (sim_cfg w))))
      by reflexivity.
    is_ran Hcand.
Qed.

Lemma attempts_made_app w w' evs ls :
  sim_trace w' = sim_trace w ++ evs ->
  sim_log w' = sim_log w ++ ls ->
  attempts_made w' =
  attempts_made w
  + (List.length (filter is_spawn_try evs) + List.length (filter is_spawn_error ls)).
Proof.
  intros Ht Hl. unfold attempts_made, served_spawns, logged_spawn_errors.
  rewrite Ht, Hl, !filter_app, !length_app. lia.
Qed.

(** ** The attempts of [spawn_vehicles], one by one *)

Ltac turn_is a :=
  exists a; eexists; split; [reflexivity|];
  split; [cbn [attempt_over]; auto|];
  split; [proj; chase; rewrite ?app_nil_r, <- ?app_assoc; reflexivity|];
  split; [proj; chase; rewrite ?app_nil_r, <- ?app_assoc; reflexivity|];
  split; [unfold scene; proj; rewrite ?map_app, ?map_handle_move;
          repeat (progress (chase; unfold scene; rewrite ?map_handle_move));
          rewrite ?app_nil_r; reflexivity|];
  split; [proj; chase; repeat apply forallb_tl; assumption|];
  proj; chase; reflexivity.

(** One turn of the loop, whatever fails in it. *)
Lemma spawn_attempt_outcome world bps sps w :
  forallb is_failure (sim_faults w) = true ->
  exists a w',
    spawn_attempt world bps sps w = (Ok tt, w') /\
    attempt_over bps sps a /\
    sim_trace w' = sim_trace w ++ attempt_events a /\
    sim_log w' = sim_log w ++ attempt_lines a /\
    scene w' = scene w ++ attempt_actors a /\
    forallb is_failure (sim_faults w') = true /\
    sim_cfg w' = sim_cfg w.
Proof.
  intros Hf. unfold spawn_attempt. monad.
  draw b Hb; [turn_is NoChoice|].
  draw sp Hsp; [turn_is NoChoice|].
  step; [caught; turn_is (Refused b sp e)|].
  unfold place. proj.
  destruct (cfg_collides _ _ _); [turn_is (Occupied b sp)|].
  match goal with
  | |- context [RActor (Some ?v)] => turn_is (Spawned b sp v)
  end.
Qed.

(** The [n] turns of the loop. *)
Lemma spawn_attempts_outcome world bps sps n : forall w,
  forallb is_failure (sim_faults w) = true ->
  exists attempts w',
    spawn_attempts n world bps sps w = (Ok tt, w') /\
    List.length attempts = n /\
    Forall (attempt_over bps sps) attempts /\
    sim_trace w' = sim_trace w ++ flat_map attempt_events attempts /\
    sim_log w' = sim_log w ++ flat_map attempt_lines attempts /\
    scene w' = scene w ++ flat_map attempt_actors attempts.
Proof.
  induction n as [|n IH]; intros w Hf; cbn [spawn_attempts].
  - exists [], w. unfold ret. cbn [flat_map]. rewrite !app_nil_r. auto 10.
  - unfold bind.
    destruct (spawn_attempt_outcome world bps sps w Hf)
      as (a & w1 & -> & Ha & Ht1 & Hl1 & Hs1 & Hf1 & _).
    destruct (IH w1 Hf1) as (attempts & w2 & -> & Hn & Hall & Ht2 & Hl2 & Hs2).
    exists (a :: attempts), w2. split; [reflexivity|].
    split; [simpl; congruence|]. split; [constructor; assumption|].
    cbn [flat_map].
    split; [rewrite Ht2, Ht1, <- app_assoc; reflexivity|].
    split; [rewrite Hl2, Hl1, <- app_assoc; reflexivity|].
    rewrite Hs2, Hs1, <- app_assoc. reflexivity.
Qed.

(** With nothing to choose from, no turn makes a call. *)
Lemma attempts_without_choice bps attempts :
  Forall (attempt_over bps []) attempts ->
  attempts = repeat NoChoice (List.length attempts).
Proof.
  induction 1 as [|a l Ha _ IH]; [reflexivity|]. cbn [List.length repeat].
  rewrite <- IH. destruct a; cbn [attempt_over] in Ha; try tauto.
  - destruct Ha as (_ & [] & _).
  - destruct Ha as (_ & []).
  - destruct Ha as (_ & [] & _).
Qed.

(** The candidates of the listed filters, when each filter matches and
    no call fails. *)
Lemma first_matches_quiet lib l : forall w,
  forallb is_quiet (firstn (List.length l) (sim_faults w)) = true ->
  forallb (resolves lib) l = true ->
  exists bs w',
    first_matches lib l w = (Ok bs, w') /\
    Forall2 (first_match lib) l bs /\
    sim_trace w' = sim_trace w ++ map (filter_call lib) l /\
    sim_log w' = sim_log w /\
    scene w' = scene w /\
    sim_rng w' = sim_rng w /\
    sim_cfg w' = sim_cfg w /\
    sim_faults w' = skipn (List.length l) (sim_faults w).
Proof.
  induction l as [|t l IH]; intros w Hq Hres; cbn [first_matches].
  - exists [], w. unfold ret. cbn [map]. rewrite app_nil_r. auto 10.
  - cbn [forallb] in Hres. apply andb_true_iff in Hres. destruct Hres as [Ht Hres].
    cbn [List.length] in Hq. monad.
    step; [quiet_absurd|].
    unfold resolves in Ht.
    destruct (filter (bp_matches t) lib) as [|b bs] eqn:Hm; [discriminate|].
    monad.
    match goal with
    | |- context [first_matches lib l ?W] => forget W
    end.
    match goal with
    | Hq1 : forallb is_quiet (firstn (List.length l) (sim_faults ?x)) = true
      |- context [first_matches lib l ?x] =>
        destruct (IH x Hq1 Hres) as (bs' & w' & -> & Hall & Ht' & Hl' & Hs' & Hr' & Hc' & Hf')
    end.
    exists (b :: bs'), w'. split; [reflexivity|].
    split; [constructor; [unfold first_match; rewrite Hm; reflexivity | exact Hall]|].
    split; [rewrite Ht'; chase; unfold filter_call; cbn [map]; rewrite Hm, <- app_assoc;
            reflexivity|].
    split; [rewrite Hl'; chase; reflexivity|].
    split; [rewrite Hs'; scene_eq|].
    split; [rewrite Hr'; chase; reflexivity|].
    split; [rewrite Hc'; chase; reflexivity|].
    rewrite Hf'. chase. destruct (sim_faults w); [destruct (List.length l)|]; reflexivity.
Qed.

Lemma forallb_failure_skipn n : forall l,
  forallb is_failure l = true -> forallb is_failure (skipn n l) = true.
Proof.
  induction n as [|n IH]; intros l H; [exact H|].
  destruct l as [|x l]; [reflexivity|]. simpl in H |- *.
  apply andb_true_iff in H. apply IH. tauto.
Qed.

(** [spawn_vehicles], once its candidates are resolved and its spawn
    points read: the turns of its loop, one by one. *)
Lemma spawn_vehicles_ran world count vehicle_types w :
  forallb is_failure (sim_faults w) = true ->
  forallb is_quiet (firstn (setup_calls vehicle_types) (sim_faults w)) = true ->
  all_resolve (cfg_blueprints (sim_cfg w)) vehicle_types = true ->
  exists w' bps attempts,
    spawn_vehicles world count vehicle_types w = (Ok tt, w') /\
    candidates (cfg_blueprints (sim_cfg w)) vehicle_types bps /\
    List.length attempts = Z.to_nat count /\
    Forall (attempt_over bps (cfg_spawn_points (sim_cfg w))) attempts /\
    sim_trace w'
    = sim_trace w
      ++ batch_setup (cfg_blueprints (sim_cfg w)) vehicle_types
                     (cfg_spawn_points (sim_cfg w))
      ++ flat_map attempt_events attempts /\
    sim_log w' = sim_log w ++ flat_map attempt_lines attempts /\
    scene w' = scene w ++ flat_map attempt_actors attempts.
Proof.
  intros Hf Hq Hres. unfold spawn_vehicles, batch_setup, filter_call.
  assert (Hcases :
    (truthy_list vehicle_types = false /\
     candidates (cfg_blueprints (sim_cfg w)) vehicle_types
                (filter (bp_matches "*vehicle*") (cfg_blueprints (sim_cfg w))))
    \/ (exists t l, vehicle_types = Some (t :: l)))
    by (destruct vehicle_types as [[|t l]|]; [left | right | left]; eauto; split; reflexivity).
  destruct Hcases as [[Hty Hcand]|(t & l & ->)].
  - unfold setup_calls in Hq. rewrite Hty in Hq |- *. monad.
    step; [quiet_absurd|].
    step; [quiet_absurd|].
    step; [quiet_absurd|].
    step; [quiet_absurd|].
    match goal with
    | |- context [spawn_attempts _ _ _ _ ?W] => forget W
    end.
    proj. chase.
    match goal with
    | Hf : forallb is_failure (sim_faults ?x) = true
      |- context [spawn_attempts ?n ?wd ?bps ?sps ?x] =>
        destruct (spawn_attempts_outcome wd bps sps n x Hf)
          as (attempts & w' & -> & Hn & Hall & Ht & Hl & Hs)
    end.
    exists w'. eexists _, attempts. split; [reflexivity|]. split; [exact Hcand|].
    split; [exact Hn|]. split; [exact Hall|].
    split; [rewrite Ht; chase; rewrite <- !app_assoc; reflexivity|].
    split; [rewrite Hl; chase; reflexivity|].
    rewrite Hs. f_equal. scene_eq.
  - unfold setup_calls in Hq. cbn [truthy_list] in Hq |- *.
    change (3 + List.length (t :: l)) with (S (2 + List.length (t :: l))) in Hq.
    monad.
    step; [quiet_absurd|].
    match goal with
    | |- context [first_matches _ _ ?W] => forget W
    end.
    proj. chase.
    match goal with
    | |- context [first_matches ?lib ?tl ?x] =>
        destruct (first_matches_quiet lib tl x)
          as (bps & w1 & -> & Hcand & Ht1 & Hl1 & Hs1 & Hr1 & Hc1 & Hflt1);
          [eapply quiet_le; [|eassumption]; lia | exact Hres |]
    end.
    assert (Hq2 : forallb is_quiet (firstn 2 (sim_faults w1)) = true)
      by (rewrite Hflt1; apply quiet_skipn; assumption).
    assert (Hf1 : forallb is_failure (sim_faults w1) = true)
      by (rewrite Hflt1; apply forallb_failure_skipn; assumption).
    step; [quiet_absurd|].
    step; [quiet_absurd|].
    match goal with
    | |- context [spawn_attempts _ _ _ _ ?W] => forget W
    end.
    proj. chase.
    match goal with
    | Hf : forallb is_failure (sim_faults ?x) = true
      |- context [spawn_attempts ?n ?wd ?bps ?sps ?x] =>
        destruct (spawn_attempts_outcome wd bps sps n x Hf)
          as (attempts & w' & -> & Hn & Hall & Ht & Hl & Hs)
    end.
    exists w', bps, attempts. split; [reflexivity|]. split; [exact Hcand|].
    split; [exact Hn|]. split; [exact Hall|].
    split; [rewrite Ht; chase; unfold filter_call;
            do 3 (cbn [app]; rewrite <- ?app_assoc); reflexivity|].
    split; [rewrite Hl; chase; reflexivity|].
    rewrite Hs. f_equal. scene_eq.
Qed.

Lemma flat_map_no_choice {A} (f : attempt -> list A) n :
  flat_map f (repeat NoChoice n) = List.concat (repeat (f NoChoice) n).
Proof.
  induction n as [|n IH]; [reflexivity|]. cbn [repeat flat_map List.concat]. rewrite IH.
  reflexivity.
Qed.

Lemma concat_repeat_nil {A} n : List.concat (repeat (@nil A) n) = [].
Proof. induction n as [|n IH]; [reflexivity | exact IH]. Qed.

Lemma concat_repeat_one {A} (x : A) n : List.concat (repeat [x] n) = repeat x n.
Proof.
  induction n as [|n IH]; [reflexivity|]. cbn [repeat List.concat app]. rewrite IH.
  reflexivity.
Qed.

(** C4 (amended). Once its candidates are resolved and its spawn points
    read, [spawn_vehicles] goes through as many turns as vehicles were
    asked for and returns, whatever fails in them.  Each turn chooses a
    candidate and a spawn point and issues one [try_spawn_actor], which
    gives an actor, now in the scene, or [None], or fails, and then its
    error is printed and the next turn follows; with nothing to choose
    from, the turn prints the error of the choice.  On a map without
    spawn points no call is made in the loop, every turn prints that
    error and the scene is as it was. *)
Theorem spawn_vehicles_attempts world count vehicle_types w :
  failures_only w ->
  quiet (setup_calls vehicle_types) w ->
  all_resolve (cfg_blueprints (sim_cfg w)) vehicle_types = true ->
  exists w' bps attempts,
    spawn_vehicles world count vehicle_types w = (Ok tt, w') /\
    candidates (cfg_blueprints (sim_cfg w)) vehicle_types bps /\
    List.length attempts = Z.to_nat count /\
    Forall (attempt_over bps (cfg_spawn_points (sim_cfg w))) attempts /\
    sim_trace w'
    = sim_trace w
      ++ batch_setup (cfg_blueprints (sim_cfg w)) vehicle_types
                     (cfg_spawn_points (sim_cfg w))
      ++ flat_map attempt_events attempts /\
    sim_log w' = sim_log w ++ flat_map attempt_lines attempts /\
    scene w' = scene w ++ flat_map attempt_actors attempts /\
    (cfg_spawn_points (sim_cfg w) = [] ->
     sim_trace w' = sim_trace w ++ batch_setup (cfg_blueprints (sim_cfg w)) vehicle_types [] /\
     sim_log w' = sim_log w ++ repeat (spawn_error_line no_choice) (Z.to_nat count) /\
     scene w' = scene w).
Proof.
  unfold failures_only, quiet. intros Hf Hq Hres.
  destruct (spawn_vehicles_ran world count vehicle_types w Hf Hq Hres)
    as (w' & bps & attempts & Heq & Hcand & Hn & Hall & Ht & Hl & Hs).
  exists w', bps, attempts. repeat (split; [assumption|]).
  intros Hnone. rewrite Hnone in *.
  assert (Hrep : attempts = repeat NoChoice (Z.to_nat count))
    by (rewrite <- Hn; apply (attempts_without_choice bps); exact Hall).
  subst attempts.
  rewrite flat_map_no_choice in Ht. rewrite flat_map_no_choice in Hl.
  rewrite flat_map_no_choice in Hs.
  cbn [attempt_events attempt_lines attempt_actors] in *.
  rewrite concat_repeat_nil in Ht. rewrite concat_repeat_nil in Hs.
  rewrite concat_repeat_one in Hl.
  rewrite !app_nil_r in Ht. rewrite app_nil_r in Hs. auto.
Qed.

Lemma spawn_vehicles_attempts_witness :
  failures_only no_spawn_points /\
  quiet (setup_calls None) no_spawn_points /\
  all_resolve (cfg_blueprints (sim_cfg no_spawn_points)) None = true /\
  exists w' bps attempts,
    spawn_vehicles WorldHandle 5 None no_spawn_points = (Ok tt, w') /\
    candidates (cfg_blueprints (sim_cfg no_spawn_points)) None bps /\
    List.length attempts = Z.to_nat 5 /\
    Forall (attempt_over bps (cfg_spawn_points (sim_cfg no_spawn_points))) attempts /\
    sim_trace w'
    = sim_trace no_spawn_points
      ++ batch_setup (cfg_blueprints (sim_cfg no_spawn_points)) None
                     (cfg_spawn_points (sim_cfg no_spawn_points))
      ++ flat_map attempt_events attempts /\
    sim_log w' = sim_log no_spawn_points ++ flat_map attempt_lines attempts /\
    scene w' = scene no_spawn_points ++ flat_map attempt_actors attempts /\
    (cfg_spawn_points (sim_cfg no_spawn_points) = [] ->
     sim_trace w'
     = sim_trace no_spawn_points
       ++ batch_setup (cfg_blueprints (sim_cfg no_spawn_points)) None [] /\
     sim_log w' = sim_log no_spawn_points ++ repeat (spawn_error_line no_choice) (Z.to_nat 5) /\
     scene w' = scene no_spawn_points).
Proof.
  split; [vm_compute; reflexivity|].
  split; [vm_compute; reflexivity|]. split; [reflexivity|].
  apply (spawn_vehicles_attempts WorldHandle 5 None no_spawn_points).
  - vm_compute; reflexivity.
  - vm_compute; reflexivity.
  - reflexivity.
Defined.

(** C4, as stated, fails when the map cannot be read: the candidates
    are resolved, two of them, the request for the map fails, and of
    the five attempts asked for none is made; the batch error is the
    only line printed. *)
Lemma spawn_vehicles_lost_map :
  spawn_vehicles WorldHandle 5 None lost_map_town = (Ok tt, after_lost_map) /\
  filter (bp_matches "*vehicle*") (cfg_blueprints (sim_cfg lost_map_town))
  = [Town.model3; Town.barrier] /\
  sim_trace after_lost_map
  = [Called CGetBlueprintLibrary (RSeq 4);
     Called (CFilter "*vehicle*") (RSeq 2);
     Failed CGetMap (RuntimeError "time-out")] /\
  spawn_requests (sim_trace after_lost_map) = [] /\
  attempts_made after_lost_map = 0 /\
  sim_log after_lost_map = [batch_error_line (RuntimeError "time-out")].
Proof.
  split; [vm_compute; reflexivity|]. split; [vm_compute; reflexivity|].
  split; [vm_compute; reflexivity|]. split; [vm_compute; reflexivity|].
  split; vm_compute; reflexivity.
Qed.

Lemma unresolved_in lib l t :
  In t l -> resolves lib t = false -> forallb (resolves lib) l = false.
Proof.
  induction l as [|x l IH]; [contradiction|]. simpl.
  intros [->|Hin] Hr; [rewrite Hr; reflexivity|].
  rewrite (IH Hin Hr). apply andb_false_r.
Qed.

(** C6, as the code has it.  A type filter that matches no blueprint
    stops the whole batch before its first attempt: the call returns, no
    spawn is requested, the scene is as it was, and one line, the batch
    error, is printed. *)
Theorem spawn_vehicles_no_match_aborts world count vehicle_types t w :
  failures_only w ->
  In t vehicle_types ->
  resolves (cfg_blueprints (sim_cfg w)) t = false ->
  exists w',
    spawn_vehicles world count (Some vehicle_types) w = (Ok tt, w') /\
    attempts_made w' = attempts_made w /\
    scene w' = scene w /\
    (exists e, is_Exception e = true /\
               sim_log w' = sim_log w ++ [batch_error_line e]) /\
    exists evs, sim_trace w' = sim_trace w ++ evs /\ spawn_requests evs = [].
Proof.
  intros Hf Hin Hr.
  destruct (spawn_vehicles_outcome world count (Some vehicle_types) w Hf)
    as (w' & Heq & _ & Hab).
  destruct Hab as (Hscene & (e & He & Hl) & evs & Ht & Hy & Hq).
  { simpl. eapply unresolved_in; eassumption. }
  exists w'. split; [exact Heq|]. split.
  - rewrite (attempts_made_app w w' evs [batch_error_line e] Ht Hl), Hy. simpl. lia.
  - split; [exact Hscene|]. split; [eauto|]. eauto.
Qed.

Lemma spawn_vehicles_no_match_aborts_witness :
  failures_only Town.empty_town /\
  In "nomatch" ["model3"; "nomatch"] /\
  resolves (cfg_blueprints (sim_cfg Town.empty_town)) "nomatch" = false /\
  exists w',
    spawn_vehicles WorldHandle 3 (Some ["model3"; "nomatch"]) Town.empty_town
    = (Ok tt, w') /\
    attempts_made w' = attempts_made Town.empty_town /\
    scene w' = scene Town.empty_town /\
    (exists e, is_Exception e = true /\
               sim_log w' = sim_log Town.empty_town ++ [batch_error_line e]) /\
    exists evs, sim_trace w' = sim_trace Town.empty_town ++ evs /\
                spawn_requests evs = [].
Proof.
  split; [vm_compute; reflexivity|]. split; [simpl; auto|].
  split; [vm_compute; reflexivity|].
  apply (spawn_vehicles_no_match_aborts WorldHandle 3 ["model3"; "nomatch"] "nomatch"
           Town.empty_town).
  - vm_compute; reflexivity.
  - simpl; auto.
  - vm_compute; reflexivity.
Defined.

(** C6, as stated, fails: with the filters [model3] and [nomatch] and
    three vehicles asked for, no attempt is made where three were to be;
    the batch error is the only line printed. *)
Lemma spawn_vehicles_no_match_counterexample :
  resolves (cfg_blueprints (sim_cfg Town.empty_town)) "nomatch" = false /\
  spawn_vehicles WorldHandle 3 (Some ["model3"; "nomatch"]) Town.empty_town
  = (Ok tt, after_bad_batch) /\
  attempts_made after_bad_batch = 0 /\
  attempts_made after_bad_batch <> attempts_made Town.empty_town + 3 /\
  sim_log after_bad_batch = [batch_error_line (IndexError "index out of range")].
Proof.
  split; [vm_compute; reflexivity|]. split; [vm_compute; reflexivity|].
  split; [vm_compute; reflexivity|]. split; [vm_compute; discriminate|].
  vm_compute; reflexivity.
Qed.

(** ** [set_autopilot] *)









Lemma scene_advance w : scene (advance w) = scene w.
Proof. unfold scene. proj. apply map_handle_move. Qed.




(** ** [follow_vehicle] *)

Lemma find_id_map (f : Entity -> Entity) id l :
  (forall e, e_id (f e) = e_id e) ->
  find (fun e => Nat.eqb (e_id e) id) (map f l)
  = option_map f (find (fun e => Nat.eqb (e_id e) id) l).
Proof.
  intros Hid. induction l as [|e l IH]; [reflexivity|]. simpl.
  rewrite Hid. destruct (Nat.eqb (e_id e) id); [reflexivity | exact IH].
Qed.

Lemma move_id cfg t e : e_id (move cfg t e) = e_id e.
Proof. unfold move. destruct (cfg_motion cfg t (e_id e)); reflexivity. Qed.

Lemma find_entity_advance id w :
  find_entity id (advance w) = option_map (move (sim_cfg w) (now w)) (find_entity id w).
Proof. unfold find_entity. proj. apply find_id_map. apply move_id. Qed.

Lemma alive_advance id w : alive id w -> alive id (advance w).
Proof.
  unfold alive. rewrite find_entity_advance.
  destruct (find_entity id w); [discriminate | auto].
Qed.

Lemma alive_update id id' f w :
  (forall e, e_id (f e) = e_id e) ->
  alive id w -> alive id (update_entity id' f w).
Proof.
  intros Hid. unfold alive, find_entity, update_entity. proj.
  rewrite find_id_map.
  - destruct (find _ (sim_actors w)); [discriminate | auto].
  - intros e. destruct (Nat.eqb (e_id e) id'); [apply Hid | reflexivity].
Qed.

Lemma alive_frame id w w' : sim_actors w' = sim_actors w -> alive id w -> alive id w'.
Proof. unfold alive, find_entity. intros ->. auto. Qed.

(** The three calls of a turn, when they are served. *)
Lemma get_transform_served a w :
  next_fault w = None -> alive (actor_id a) w ->
  exists e, find_entity (actor_id a) (advance (pop_fault w)) = Some e /\
    Actor_get_transform a w
    = (Ok (e_pose e),
       record (Called (CGetTransform a) (RPose (e_pose e))) (advance (pop_fault w))).
Proof.
  intros E Ha. unfold Actor_get_transform. rewrite invoke_served by exact E.
  unfold observe.
  assert (H : alive (actor_id a) (advance (pop_fault w)))
    by (apply alive_advance; exact Ha).
  unfold alive in H. destruct (find_entity (actor_id a) (advance (pop_fault w))) as [e|];
    [|contradiction H; reflexivity].
  exists e. split; reflexivity.
Qed.

Lemma set_transform_served a p w :
  next_fault w = None -> alive (actor_id a) w ->
  Actor_set_transform a p w
  = (Ok tt,
     record (Called (CSetTransform a p) RNone)
       (update_entity (actor_id a) (fun e => with_pose e p) (advance (pop_fault w)))).
Proof.
  intros E Ha. unfold Actor_set_transform. rewrite invoke_served by exact E.
  unfold observe.
  assert (H : alive (actor_id a) (advance (pop_fault w)))
    by (apply alive_advance; exact Ha).
  unfold alive in H. destruct (find_entity (actor_id a) (advance (pop_fault w)));
    [reflexivity | contradiction H; reflexivity].
Qed.

Lemma sleep_served s w :
  next_fault w = None ->
  time_sleep s w = (Ok tt, record (Called (CSleep s) RNone) (advance (pop_fault w))).
Proof.
  intros E. unfold time_sleep. rewrite invoke_served by exact E. reflexivity.
Qed.

Lemma quiet_next k w :
  forallb is_quiet (firstn (S k) (sim_faults w)) = true -> next_fault w = None.
Proof.
  intros H. destruct (next_fault w) eqn:E; [|reflexivity].
  exfalso. eapply quiet_no_fault; eassumption.
Qed.

Lemma map_handle_update id (f : Entity -> Entity) l :
  (forall e, handle (f e) = handle e) ->
  map handle (map (fun e => if Nat.eqb (e_id e) id then f e else e) l) = map handle l.
Proof.
  intros Hf. rewrite map_map. apply map_ext. intros e.
  destruct (Nat.eqb (e_id e) id); [apply Hf | reflexivity].
Qed.

(** The pose copy and the sleep of a turn that no fault disturbs. *)
Lemma copy_and_sleep spectator camera w0 :
  forallb is_quiet (firstn 3 (sim_faults w0)) = true ->
  alive (actor_id camera) w0 -> alive (actor_id spectator) w0 ->
  exists p w1,
    (tr <- Actor_get_transform camera ;;
     Actor_set_transform spectator tr ;;
     time_sleep 0.01%Q ;;
     ret Continue) w0 = (Ok Continue, w1) /\
    sim_trace w1 = sim_trace w0 ++ blind_iteration_events spectator camera p /\
    sim_log w1 = sim_log w0 /\
    sim_faults w1 = skipn 3 (sim_faults w0) /\
    sim_cfg w1 = sim_cfg w0 /\
    scene w1 = scene w0 /\
    alive (actor_id camera) w1 /\ alive (actor_id spectator) w1.
Proof.
  intros Hq Hc0 Hs0. unfold bind.
  destruct (get_transform_served camera w0 (quiet_next _ _ Hq) Hc0) as (e & _ & ->).
  set (w1 := record (Called (CGetTransform camera) (RPose (e_pose e)))
               (advance (pop_fault w0))).
  assert (Hq1 : forallb is_quiet (firstn 2 (sim_faults w1)) = true)
    by (apply quiet_tl; exact Hq).
  assert (Hs1 : alive (actor_id spectator) w1).
  { apply (alive_frame _ (advance (pop_fault w0))); [reflexivity|].
    apply alive_advance. exact Hs0. }
  rewrite (set_transform_served spectator (e_pose e) w1 (quiet_next _ _ Hq1) Hs1).
  set (w2 := record (Called (CSetTransform spectator (e_pose e)) RNone)
               (update_entity (actor_id spectator) (fun e0 => with_pose e0 (e_pose e))
                  (advance (pop_fault w1)))).
  assert (Hq2 : forallb is_quiet (firstn 1 (sim_faults w2)) = true)
    by (apply quiet_tl; exact Hq1).
  rewrite (sleep_served _ w2 (quiet_next _ _ Hq2)).
  exists (e_pose e). eexists. split; [reflexivity|].
  unfold ret.
  split; [unfold w2, w1; proj; rewrite <- ?app_assoc; reflexivity|].
  split; [reflexivity|].
  split; [unfold w2, w1; proj; destruct (sim_faults w0) as [|? [|? [|? ?]]]; reflexivity|].
  split; [reflexivity|].
  split.
  { unfold scene, w2, w1. proj. rewrite map_handle_move.
    rewrite map_handle_update by reflexivity. rewrite !map_handle_move. reflexivity. }
  split.
  - apply (alive_frame _ (advance (pop_fault w2))); [reflexivity|].
    apply alive_advance. apply (alive_frame _ (update_entity (actor_id spectator)
      (fun e0 => with_pose e0 (e_pose e)) (advance (pop_fault w1)))); [reflexivity|].
    apply alive_update; [reflexivity|]. apply alive_advance.
    apply (alive_frame _ (advance (pop_fault w0))); [reflexivity|].
    apply alive_advance. exact Hc0.
  - apply (alive_frame _ (advance (pop_fault w2))); [reflexivity|].
    apply alive_advance. apply (alive_frame _ (update_entity (actor_id spectator)
      (fun e0 => with_pose e0 (e_pose e)) (advance (pop_fault w1)))); [reflexivity|].
    apply alive_update; [reflexivity|]. apply alive_advance. exact Hs1.
Qed.

(** A turn of the loop that no fault disturbs. *)
Lemma follow_iteration_quiet spectator camera stop_event w :
  forallb is_quiet (firstn 3 (sim_faults w)) = true ->
  match stop_event with Some ev => ev (now w) = false | None => True end ->
  alive (actor_id camera) w -> alive (actor_id spectator) w ->
  exists p w1,
    follow_iteration spectator camera stop_event w = (Ok Continue, w1) /\
    sim_trace w1
    = sim_trace w
      ++ match stop_event with
         | Some _ => iteration_events spectator camera p
         | None => blind_iteration_events spectator camera p
         end /\
    sim_log w1 = sim_log w /\
    sim_faults w1 = skipn 3 (sim_faults w) /\
    sim_cfg w1 = sim_cfg w /\
    scene w1 = scene w /\
    alive (actor_id camera) w1 /\ alive (actor_id spectator) w1.
Proof.
  intros Hq Hev Hc Hs. unfold follow_iteration, try_except. unfold bind at 1.
  destruct stop_event as [ev|].
  - unfold Event_is_set, observe. change (now (advance w)) with (now w).
    rewrite Hev. cbv beta iota.
    destruct (copy_and_sleep spectator camera
                (record (Called CIsSet (RBool false)) (advance w)))
      as (p & w1 & -> & Ht & Hl & Hflt & Hg & Hsc & Hc1 & Hs1).
    + exact Hq.
    + apply (alive_frame _ (advance w)); [reflexivity | apply alive_advance; exact Hc].
    + apply (alive_frame _ (advance w)); [reflexivity | apply alive_advance; exact Hs].
    + exists p, w1. split; [reflexivity|].
      split; [rewrite Ht; proj; rewrite <- app_assoc; reflexivity|].
      split; [exact Hl|]. split; [exact Hflt|]. split; [exact Hg|].
      split; [rewrite Hsc; unfold scene; proj; apply map_handle_move|].
      split; assumption.
  - unfold ret at 1. cbv beta iota.
    destruct (copy_and_sleep spectator camera w Hq Hc Hs)
      as (p & w1 & -> & Ht & Hl & Hflt & Hg & Hsc & Hc1 & Hs1).
    exists p, w1. repeat split; assumption.
Qed.

(** The turn that finds the signal set. *)
Lemma follow_iteration_stop spectator camera (ev : Event) w :
  ev (now w) = true ->
  follow_iteration spectator camera (Some ev) w
  = (Ok Break, record (Called CIsSet (RBool true)) (advance w)).
Proof.
  intros Hev. unfold follow_iteration, try_except. unfold bind at 1.
  unfold Event_is_set, observe. change (now (advance w)) with (now w).
  rewrite Hev. reflexivity.
Qed.

Lemma now_app w w' evs : sim_trace w' = sim_trace w ++ evs -> now w' = now w + List.length evs.
Proof. unfold now. intros ->. apply length_app. Qed.

(** The loop with a stop signal, when no fault disturbs it: it makes a
    turn at every check that finds the signal unset and ends at the
    first check that finds it set. *)
Lemma follow_loop_stops spectator camera (ev : Event) n : forall w fuel,
  n < fuel ->
  forallb is_quiet (firstn (3 * n) (sim_faults w)) = true ->
  (forall i, i < n -> ev (now w + 4 * i) = false) ->
  ev (now w + 4 * n) = true ->
  alive (actor_id camera) w -> alive (actor_id spectator) w ->
  exists w' poses,
    follow_loop fuel spectator camera (Some ev) w = Some (Ok tt, w') /\
    List.length poses = n /\
    sim_trace w'
    = sim_trace w ++ flat_map (iteration_events spectator camera) poses
      ++ [Called CIsSet (RBool true)] /\
    sim_log w' = sim_log w /\
    scene w' = scene w.
Proof.
  induction n as [|n IH]; intros w fuel Hfuel Hq Hunset Hset Hc Hs;
    (destruct fuel as [|fuel]; [lia|]); simpl follow_loop.
  - rewrite Nat.add_0_r in Hset. rewrite (follow_iteration_stop _ _ _ _ Hset).
    eexists. exists []. split; [reflexivity|]. split; [reflexivity|].
    proj. repeat split. apply scene_advance.
  - destruct (follow_iteration_quiet spectator camera (Some ev) w)
      as (p & w1 & -> & Ht & Hl & Hflt & Hg & Hsc & Hc1 & Hs1).
    + eapply quiet_le; [|exact Hq]. lia.
    + specialize (Hunset 0). rewrite Nat.add_0_r in Hunset. apply Hunset. lia.
    + exact Hc.
    + exact Hs.
    + pose proof (now_app _ _ _ Ht) as Hnow. simpl in Hnow.
      destruct (IH w1 fuel) as (w' & poses & -> & Hlen & Ht' & Hl' & Hsc').
      * lia.
      * rewrite Hflt. apply quiet_skipn.
        replace (3 * n + 3) with (3 * S n) by lia. exact Hq.
      * intros i Hi. rewrite Hnow.
        replace (now w + 4 + 4 * i) with (now w + 4 * S i) by lia.
        apply Hunset. lia.
      * rewrite Hnow. replace (now w + 4 + 4 * n) with (now w + 4 * S n) by lia.
        exact Hset.
      * exact Hc1.
      * exact Hs1.
      * exists w', (p :: poses). split; [reflexivity|].
        split; [simpl; lia|].
        split; [rewrite Ht', Ht; simpl; rewrite <- !app_assoc; reflexivity|].
        split; [congruence|].
        congruence.
Qed.

Lemma alive_moved id cfg t w w' :
  sim_actors w' = map (move cfg t) (sim_actors w) -> alive id w -> alive id w'.
Proof.
  unfold alive, find_entity. intros ->. rewrite find_id_map by apply move_id.
  destruct (find _ (sim_actors w)); [discriminate | auto].
Qed.

Lemma find_entity_served id w :
  find_entity id (advance (pop_fault w))
  = option_map (move (sim_cfg w) (now w)) (find_entity id w).
Proof. apply (find_entity_advance id (pop_fault w)). Qed.

Lemma handle_move cfg t e : handle (move cfg t e) = handle e.
Proof. unfold move. destruct (cfg_motion cfg t (e_id e)); reflexivity. Qed.

Lemma find_last id l e :
  e_id e = id -> find (fun x => Nat.eqb (e_id x) id) (l ++ [e]) <> None.
Proof.
  intros He. induction l as [|x l IH]; simpl.
  - rewrite He, Nat.eqb_refl. discriminate.
  - destruct (Nat.eqb (e_id x) id); [discriminate | exact IH].
Qed.

Lemma find_app_some id l l' :
  find (fun x => Nat.eqb (e_id x) id) l <> None ->
  find (fun x => Nat.eqb (e_id x) id) (l ++ l') <> None.
Proof.
  induction l as [|x l IH]; simpl; [intros H; contradiction H; reflexivity|].
  destruct (Nat.eqb (e_id x) id); [discriminate | exact IH].
Qed.

Lemma find_entity_id id w e : find_entity id w = Some e -> e_id e = id.
Proof.
  unfold find_entity. intros H. apply find_some in H. apply Nat.eqb_eq. apply H.
Qed.

(** The lines before the loop, when no fault disturbs them and the
    spectator, the camera blueprint and the vehicle are there. *)
Lemma follow_setup_quiet world vehicle w s camera_bp :
  forallb is_quiet (firstn 6 (sim_faults w)) = true ->
  find_entity (cfg_spectator (sim_cfg w)) w = Some s ->
  find (fun b => String.eqb (bp_id b) "sensor.camera.rgb") (cfg_blueprints (sim_cfg w))
  = Some camera_bp ->
  alive (actor_id vehicle) w ->
  exists p w1,
    follow_setup world vehicle w = (Ok (handle s, new_camera camera_bp w), w1) /\
    sim_trace w1
    = sim_trace w
      ++ setup_events (handle s) vehicle (new_camera camera_bp w) camera_bp
           (List.length (cfg_blueprints (sim_cfg w))) p /\
    sim_log w1 = sim_log w /\
    sim_faults w1 = skipn 6 (sim_faults w) /\
    scene w1 = scene w ++ [new_camera camera_bp w] /\
    alive (actor_id (new_camera camera_bp w)) w1 /\
    alive (e_id s) w1.
Proof.
  intros Hq Hs Hbp Hv. unfold follow_setup, new_camera. monad.
  step; [quiet_absurd|].
  change (sim_cfg (advance (pop_fault w))) with (sim_cfg w).
  rewrite find_entity_served, Hs. cbn [option_map].
  rewrite handle_move.
  step; [quiet_absurd|].
  step; [quiet_absurd|]. proj. chase. rewrite Hbp.
  step; [quiet_absurd|].
  assert (Hv0 : alive (actor_id vehicle) w0) by (eapply alive_moved; eassumption).
  assert (Hv1 : alive (actor_id vehicle) w1) by (eapply alive_moved; eassumption).
  assert (Hv2 : alive (actor_id vehicle) w2) by (eapply alive_moved; eassumption).
  assert (Hs' : alive (e_id s) w)
    by (unfold alive; rewrite (find_entity_id _ _ _ Hs), Hs; discriminate).
  assert (Hs0 : alive (e_id s) w0) by (eapply alive_moved; eassumption).
  assert (Hs1 : alive (e_id s) w1) by (eapply alive_moved; eassumption).
  assert (Hs2 : alive (e_id s) w2) by (eapply alive_moved; eassumption).
  unfold place. rewrite find_entity_served.
  destruct (find_entity (actor_id vehicle) w2) as [pv|] eqn:Hpv;
    [|contradiction Hv2; reflexivity].
  cbn [option_map]. cbv beta delta [handle]. cbn [e_id e_type actor_id].
  change (sim_next_id (advance (pop_fault w2))) with (sim_next_id w2).
  chase.
  step; [quiet_absurd|].
  assert (Hc3 : alive (sim_next_id w) w3).
  { unfold alive, find_entity. rewrite Kact2. apply find_last. reflexivity. }
  assert (Hs3 : alive (e_id s) w3).
  { unfold alive, find_entity. rewrite Kact2. apply find_app_some.
    rewrite find_id_map by apply move_id.
    unfold alive, find_entity in Hs2. destruct (find _ (sim_actors w2));
      [discriminate | contradiction Hs2; reflexivity]. }
  rewrite find_entity_served.
  destruct (find_entity (sim_next_id w) w3) as [ce|] eqn:Hce;
    [|contradiction Hc3; reflexivity].
  cbn [option_map]. monad.
  step; [quiet_absurd|].
  assert (Hs4 : alive (e_id s) w4) by (eapply alive_moved; eassumption).
  assert (Hc4 : alive (sim_next_id w) w4)
    by (eapply alive_moved; eassumption).
  rewrite find_entity_served.
  destruct (find_entity (e_id s) w4) as [se|] eqn:Hse;
    [|contradiction Hs4; reflexivity].
  cbn [option_map]. monad.
  eexists _, _. split; [reflexivity|].
  split; [unfold setup_events; trace_eq|].
  split; [log_eq|].
  split.
  { proj. chase.
    destruct (sim_faults w) as [|? [|? [|? [|? [|? [|? ?]]]]]]; reflexivity. }
  split.
  { unfold scene. proj. rewrite map_handle_update by reflexivity.
    rewrite map_handle_move.
    repeat (progress (chase; rewrite ?map_app, ?map_handle_move)).
    reflexivity. }
  split.
  - eapply alive_frame; [reflexivity|]. apply alive_update; [reflexivity|].
    apply alive_advance. eapply alive_frame; [|exact Hc4]. reflexivity.
  - eapply alive_frame; [reflexivity|]. apply alive_update; [reflexivity|].
    apply alive_advance. eapply alive_frame; [|exact Hs4]. reflexivity.
Qed.

Lemma polls_of_turns spectator camera poses :
  List.length (filter is_poll (flat_map (iteration_events spectator camera) poses))
  = List.length poses.
Proof.
  induction poses as [|p poses IH]; [reflexivity|]. simpl. rewrite IH. reflexivity.
Qed.

(** C1. With a stop signal and no fault, [follow_vehicle] ends, without
    printing anything, at the first check that finds the signal set: if
    the first [n] checks find it unset and the next one finds it set,
    the run is the setup, [n] turns and that last check.  A turn consults
    the signal once, then gives the spectator the pose just read from
    the camera, then sleeps; so the signal is consulted [n + 1] times. *)
Theorem follow_vehicle_stops_at_next_check world vehicle (ev : Event) n fuel w s camera_bp :
  quiet (6 + 3 * n) w ->
  find_entity (cfg_spectator (sim_cfg w)) w = Some s ->
  find (fun b => String.eqb (bp_id b) "sensor.camera.rgb") (cfg_blueprints (sim_cfg w))
  = Some camera_bp ->
  alive (actor_id vehicle) w ->
  (forall i, i < n -> ev (now w + 6 + 4 * i) = false) ->
  ev (now w + 6 + 4 * n) = true ->
  n < fuel ->
  exists w' p0 poses,
    follow_vehicle fuel world vehicle (Some ev) w = Some (Ok tt, w') /\
    List.length poses = n /\
    sim_trace w'
    = sim_trace w
      ++ setup_events (handle s) vehicle (new_camera camera_bp w) camera_bp
           (List.length (cfg_blueprints (sim_cfg w))) p0
      ++ flat_map (iteration_events (handle s) (new_camera camera_bp w)) poses
      ++ [Called CIsSet (RBool true)] /\
    List.length
      (filter is_poll
         (flat_map (iteration_events (handle s) (new_camera camera_bp w)) poses
          ++ [Called CIsSet (RBool true)])) = n + 1 /\
    sim_log w' = sim_log w.
Proof.
  unfold quiet. intros Hq Hs Hbp Hv Hunset Hset Hfuel. unfold follow_vehicle.
  destruct (follow_setup_quiet world vehicle w s camera_bp)
    as (p0 & w1 & -> & Ht & Hl & Hflt & Hsc & Hc1 & Hs1); try assumption.
  { eapply quiet_le; [|exact Hq]. lia. }
  pose proof (now_app _ _ _ Ht) as Hnow. simpl in Hnow.
  destruct (follow_loop_stops (handle s) (new_camera camera_bp w) ev n w1 fuel)
    as (w' & poses & -> & Hlen & Ht' & Hl' & _); try assumption.
  - rewrite Hflt. apply quiet_skipn. rewrite Nat.add_comm. exact Hq.
  - intros i Hi. rewrite Hnow. apply Hunset. exact Hi.
  - rewrite Hnow. exact Hset.
  - exists w', p0, poses. split; [reflexivity|]. split; [exact Hlen|].
    split; [rewrite Ht', Ht, <- app_assoc; reflexivity|].
    split; [rewrite filter_app, length_app, polls_of_turns, Hlen; reflexivity|].
    congruence.
Qed.







Lemma follow_vehicle_stops_at_next_check_witness :
  quiet (6 + 3 * 4) Town.one_car /\
  find_entity (cfg_spectator (sim_cfg Town.one_car)) Town.one_car = Some Town.spectator /\
  find (fun b => String.eqb (bp_id b) "sensor.camera.rgb")
       (cfg_blueprints (sim_cfg Town.one_car)) = Some Town.camera_rgb /\
  alive (actor_id (handle Town.car)) Town.one_car /\
  (forall i, i < 4 -> set_from 20 (now Town.one_car + 6 + 4 * i) = false) /\
  set_from 20 (now Town.one_car + 6 + 4 * 4) = true /\
  4 < 10 /\
  exists w' p0 poses,
    follow_vehicle 10 WorldHandle (handle Town.car) (Some (set_from 20)) Town.one_car
    = Some (Ok tt, w') /\
    List.length poses = 4 /\
    sim_trace w'
    = sim_trace Town.one_car
      ++ setup_events (handle Town.spectator) (handle Town.car)
           (new_camera Town.camera_rgb Town.one_car) Town.camera_rgb
           (List.length (cfg_blueprints (sim_cfg Town.one_car))) p0
      ++ flat_map (iteration_events (handle Town.spectator)
                     (new_camera Town.camera_rgb Town.one_car)) poses
      ++ [Called CIsSet (RBool true)] /\
    List.length
      (filter is_poll
         (flat_map (iteration_events (handle Town.spectator)
                      (new_camera Town.camera_rgb Town.one_car)) poses
          ++ [Called CIsSet (RBool true)])) = 4 + 1 /\
    sim_log w' = sim_log Town.one_car.
Proof.
  assert (H1 : quiet (6 + 3 * 4) Town.one_car) by (vm_compute; reflexivity).
  assert (H2 : find_entity (cfg_spectator (sim_cfg Town.one_car)) Town.one_car
               = Some Town.spectator) by (vm_compute; reflexivity).
  assert (H3 : find (fun b => String.eqb (bp_id b) "sensor.camera.rgb")
                    (cfg_blueprints (sim_cfg Town.one_car)) = Some Town.camera_rgb)
    by (vm_compute; reflexivity).
  assert (H4 : alive (actor_id (handle Town.car)) Town.one_car)
    by (vm_compute; discriminate).
  assert (H5 : forall i, i < 4 -> set_from 20 (now Town.one_car + 6 + 4 * i) = false)
    by (intros i Hi; do 4 (destruct i as [|i]; [reflexivity|]); lia).
  assert (H6 : set_from 20 (now Town.one_car + 6 + 4 * 4) = true) by reflexivity.
  assert (H7 : 4 < 10) by lia.
  repeat (split; [assumption|]).
  exact (follow_vehicle_stops_at_next_check WorldHandle (handle Town.car) (set_from 20)
           4 10 Town.one_car Town.spectator Town.camera_rgb H1 H2 H3 H4 H5 H6 H7).
Defined.


(** C3 fails on the code.  The lines of [follow_vehicle] before its loop
    are outside its [try]: when the spawn of the camera fails, here on a
    time-out of the server, the [RuntimeError], an [Exception], leaves
    [follow_vehicle] with nothing printed, whatever the stop signal. *)
Theorem follow_vehicle_setup_failure_escapes fuel stop_event :
  follow_vehicle fuel WorldHandle (handle Town.car) stop_event timing_out_town
  = Some (Raise (RuntimeError "time-out while waiting for the simulator"),
          after_failed_setup) /\
  is_Exception (RuntimeError "time-out while waiting for the simulator") = true /\
  sim_log after_failed_setup = [].
Proof.
  unfold follow_vehicle.
  assert (H : follow_setup WorldHandle (handle Town.car) timing_out_town
              = (Raise (RuntimeError "time-out while waiting for the simulator"),
                 after_failed_setup)) by (vm_compute; reflexivity).
  rewrite H. split; [reflexivity|]. split; [reflexivity|]. vm_compute. reflexivity.
Qed.

(** ** Wildcard patterns and the candidates of [spawn_vehicles] *)













Lemma random_choice_nth {A} (seq : list A) w :
  seq <> [] ->
  exists x, random_choice seq w = (Ok x, set_rng (tl (sim_rng w)) w) /\
            nth_error seq (hd 0 (sim_rng w) mod List.length seq) = Some x.
Proof.
  destruct seq as [|a l]; [contradiction|]. intros _.
  eexists. split; [reflexivity|].
  apply nth_error_nth'. apply Nat.mod_upper_bound. discriminate.
Qed.



(** *** The draws are uniform *)











(** ** [destroy_actors] *)

Lemma scene_remove id w :
  scene (remove_entity id w)
  = filter (fun a => negb (Nat.eqb (actor_id a) id)) (scene w).
Proof.
  unfold scene, remove_entity. proj.
  induction (sim_actors w) as [|e l IH]; [reflexivity|]. simpl.
  destruct (Nat.eqb (e_id e) id); simpl; rewrite IH; reflexivity.
Qed.

Lemma filter_other_ids id (l : list Actor) :
  ~ In id (map actor_id l) ->
  filter (fun a => negb (Nat.eqb (actor_id a) id)) l = l.
Proof.
  induction l as [|a l IH]; [reflexivity|]. cbn [filter map In]. intros Hn.
  destruct (Nat.eqb_spec (actor_id a) id) as [Heq|_]; [tauto|].
  cbn [negb]. rewrite IH; tauto.
Qed.

Lemma find_entity_scene a l w :
  scene w = a :: l -> find_entity (actor_id a) w <> None.
Proof.
  unfold scene, find_entity. destruct (sim_actors w) as [|e es]; [discriminate|].
  simpl. intros [= <- _]. simpl. rewrite Nat.eqb_refl. discriminate.
Qed.

Lemma next_fault_in w e : next_fault w = Some e -> In (Some e) (sim_faults w).
Proof.
  unfold next_fault. destruct (sim_faults w) as [|[x|] l]; try discriminate.
  intros [= ->]. left. reflexivity.
Qed.

Lemma in_tl {A} (x : A) l : In x (tl l) -> In x l.
Proof. destruct l; simpl; auto. Qed.

Lemma failure_in w e :
  forallb is_failure (sim_faults w) = true -> In (Some e) (sim_faults w) ->
  is_Exception e = true.
Proof.
  intros Hf Hin. rewrite forallb_forall in Hf. exact (Hf _ Hin).
Qed.

(** The loop of [destroy_actors] over the actors of the scene: it
    destroys them in order, up to the first call that fails. *)
Lemma destroy_loop l : forall w,
  scene w = l -> NoDup (map actor_id l) ->
  exists r w' k,
    for_each l (fun actor => Actor_destroy actor ;; ret tt) w = (r, w') /\
    k <= List.length l /\
    scene w' = skipn k l /\
    sim_log w' = sim_log w /\
    match r with
    | Ok _ => k = List.length l /\ sim_trace w' = sim_trace w ++ destroy_calls l
    | Raise e =>
        In (Some e) (sim_faults w) /\
        exists a, nth_error l k = Some a /\
          sim_trace w' = sim_trace w ++ destroy_calls (firstn k l) ++ [Failed (CDestroy a) e]
    end /\
    (forallb is_quiet (firstn (List.length l) (sim_faults w)) = true ->
     exists u, r = Ok u).
Proof.
  set (body := fun actor : Actor => Actor_destroy actor ;; ret tt).
  induction l as [|a l IH]; intros w Hsc Hnd; cbn [for_each].
  - exists (Ok tt), w, 0. unfold ret. split; [reflexivity|]. split; [lia|].
    split; [exact Hsc|]. split; [reflexivity|].
    split; [split; [reflexivity | rewrite app_nil_r; reflexivity]|]. eauto.
  - unfold bind at 1. unfold body at 1. unfold bind at 1. unfold Actor_destroy.
    destruct (next_fault w) as [e|] eqn:E.
    + rewrite (invoke_fault _ _ _ _ _ E).
      exists (Raise e), (record (Failed (CDestroy a) e) (advance (pop_fault w))), 0.
      split; [reflexivity|]. split; [lia|].
      split; [unfold scene; proj; rewrite map_handle_move; exact Hsc|].
      split; [reflexivity|].
      split; [split; [apply next_fault_in; exact E|];
              exists a; split; reflexivity|].
      intros Hq. exfalso. eapply quiet_no_fault; eassumption.
    + rewrite (invoke_served _ _ _ _ E). unfold observe.
      destruct (find_entity (actor_id a) (advance (pop_fault w))) as [x|] eqn:Hx.
      2:{ exfalso. rewrite find_entity_served in Hx.
          pose proof (find_entity_scene a l w Hsc) as Hne.
          destruct (find_entity (actor_id a) w); [discriminate | tauto]. }
      cbv beta iota delta [ret].
      inversion Hnd as [|? ? Hnin Hnd']; subst.
      match goal with |- context [for_each l _ ?W] =>
        destruct (IH W) as (r & w' & k & -> & Hk & Hs & Hl & Hr & Hq);
          [unfold record, set_trace, scene; cbn [sim_actors];
            fold (scene (remove_entity (actor_id a) (advance (pop_fault w))));
            rewrite scene_remove, scene_advance;
            change (scene (pop_fault w)) with (scene w); rewrite Hsc;
            simpl; rewrite Nat.eqb_refl; simpl; apply filter_other_ids; exact Hnin
          | exact Hnd' |]
      end.
      proj in Hl. proj in Hq.
      assert (Ht : forall evs,
                 sim_trace w' = (sim_trace w ++ [Called (CDestroy a) (RBool true)]) ++ evs ->
                 sim_trace w' = sim_trace w ++ Called (CDestroy a) (RBool true) :: evs)
        by (intros evs ->; rewrite <- app_assoc; reflexivity).
      destruct r as [u|e].
      * destruct Hr as [-> Htr]. proj in Htr.
        exists (Ok u), w', (S (List.length l)). split; [reflexivity|].
        split; [simpl; lia|]. split; [exact Hs|]. split; [exact Hl|].
        split; [split; [reflexivity | apply Ht; exact Htr]|]. eauto.
      * destruct Hr as (He & b & Hb & Htr). proj in Htr.
        exists (Raise e), w', (S k). split; [reflexivity|].
        split; [simpl; lia|]. split; [exact Hs|]. split; [exact Hl|].
        split; [split; [proj in He; apply in_tl; exact He|];
                exists b; split; [exact Hb | apply Ht; exact Htr]|].
        intros Hq1. apply Hq. apply (quiet_tl _ _ Hq1).
Qed.

Lemma scene_empty w : scene w = [] -> sim_actors w = [].
Proof. unfold scene. destruct (sim_actors w); [reflexivity | discriminate]. Qed.

(** What [destroy_actors] does in all cases, the actors having distinct
    ids: it asks for the actors and destroys them in the order of the
    scene up to the first call that fails. *)
Lemma destroy_actors_run world w :
  distinct_ids w ->
  exists r w' k,
    destroy_actors world w = (r, w') /\
    k <= List.length (scene w) /\
    scene w' = skipn k (scene w) /\
    ((r = Ok tt /\ k = List.length (scene w) /\ sim_log w' = sim_log w /\
      sim_trace w'
      = sim_trace w ++ Called CGetActors (RSeq (List.length (scene w)))
                    :: destroy_calls (scene w))
     \/ (exists e, In (Some e) (sim_faults w) /\ destroy_stopped w w' k e /\
           ((is_Exception e = true /\ r = Ok tt /\
             sim_log w' = sim_log w ++ [destroy_error_line e])
            \/ (is_Exception e = false /\ r = Raise e /\ sim_log w' = sim_log w)))) /\
    (quiet (1 + List.length (scene w)) w ->
     r = Ok tt /\ k = List.length (scene w) /\ sim_log w' = sim_log w /\
     sim_trace w'
     = sim_trace w ++ Called CGetActors (RSeq (List.length (scene w)))
                   :: destroy_calls (scene w)).
Proof.
  unfold distinct_ids, quiet, destroy_stopped. intros Hnd.
  unfold destroy_actors, try_except.
  unfold bind at 1. unfold World_get_actors.
  destruct (next_fault w) as [e|] eqn:E.
  - rewrite (invoke_fault _ _ _ _ _ E).
    destruct (is_Exception e) eqn:He.
    + eexists (Ok tt), _, 0. split; [reflexivity|]. split; [lia|].
      split; [unfold scene; proj; rewrite map_handle_move; reflexivity|].
      split.
      * right. exists e. split; [apply next_fault_in; exact E|].
        split; [left; split; reflexivity|]. left.
        split; [exact He|]. split; reflexivity.
      * intros Hq. exfalso. eapply quiet_no_fault; eassumption.
    + eexists (Raise e), _, 0. split; [reflexivity|]. split; [lia|].
      split; [unfold scene; proj; rewrite map_handle_move; reflexivity|].
      split.
      * right. exists e. split; [apply next_fault_in; exact E|].
        split; [left; split; reflexivity|]. right.
        split; [exact He|]. split; reflexivity.
      * intros Hq. exfalso. eapply quiet_no_fault; eassumption.
  - rewrite (invoke_served _ _ _ _ E). unfold observe. cbv beta iota.
    fold (scene (advance (pop_fault w))). rewrite scene_advance.
    change (scene (pop_fault w)) with (scene w).
    match goal with |- context [for_each _ _ ?W] =>
      destruct (destroy_loop (scene w) W) as (r & w' & k & -> & Hk & Hs & Hl & Hr & Hq);
        [unfold scene; proj; apply map_handle_move | exact Hnd |]
    end.
    proj in Hl. proj in Hq.
    destruct r as [[]|e].
    + destruct Hr as [-> Ht]. proj in Ht.
      assert (Ht' : sim_trace w'
                    = sim_trace w ++ Called CGetActors (RSeq (List.length (scene w)))
                                  :: destroy_calls (scene w))
        by (rewrite Ht, ?length_map, <- app_assoc; reflexivity).
      exists (Ok tt), w', (List.length (scene w)). split; [reflexivity|].
      split; [lia|]. split; [exact Hs|]. split; [|auto].
      left. auto.
    + destruct Hr as (Hin & a & Ha & Ht). proj in Hin. apply in_tl in Hin. proj in Ht.
      assert (Ht' : sim_trace w'
                    = sim_trace w ++ Called CGetActors (RSeq (List.length (scene w)))
                                  :: destroy_calls (firstn k (scene w))
                                     ++ [Failed (CDestroy a) e])
        by (rewrite Ht, ?length_map, <- app_assoc; reflexivity).
      destruct (is_Exception e) eqn:He.
      * eexists (Ok tt), _, k. split; [reflexivity|]. split; [exact Hk|].
        split; [exact Hs|]. split.
        -- right. exists e. split; [exact Hin|].
           split; [right; exists a; split; [exact Ha | exact Ht']|].
           left. split; [exact He|].
           split; [reflexivity|]. proj. rewrite Hl. reflexivity.
        -- intros Hq1. destruct Hq as [u Hu]; [apply (quiet_tl _ _ Hq1) | discriminate].
      * exists (Raise e), w', k. split; [reflexivity|]. split; [exact Hk|].
        split; [exact Hs|]. split.
        -- right. exists e. split; [exact Hin|].
           split; [right; exists a; split; [exact Ha | exact Ht']|]. right. auto.
        -- intros Hq1. destruct Hq as [u Hu]; [apply (quiet_tl _ _ Hq1) | discriminate].
Qed.

(** [destroy_actors] never raises on a failure.  It asks for the actors
    and destroys them in the order of the scene.  Either every call is
    served: all the actors are gone and nothing is printed; that is so
    when no fault is scheduled.  Or a call fails, on a fault of the
    script: the actors before the failing one are gone, it and those
    after it are left, and that error is printed, once. *)
Theorem destroy_actors_partial world w :
  failures_only w -> distinct_ids w ->
  exists w' k,
    destroy_actors world w = (Ok tt, w') /\
    k <= List.length (scene w) /\
    scene w' = skipn k (scene w) /\
    ((k = List.length (scene w) /\ sim_log w' = sim_log w /\
      sim_trace w'
      = sim_trace w ++ Called CGetActors (RSeq (List.length (scene w)))
                    :: destroy_calls (scene w))
     \/ (exists e, In (Some e) (sim_faults w) /\ is_Exception e = true /\
                   destroy_stopped w w' k e /\
                   sim_log w' = sim_log w ++ [destroy_error_line e])) /\
    (quiet (1 + List.length (scene w)) w ->
     k = List.length (scene w) /\ sim_log w' = sim_log w).
Proof.
  intros Hf Hnd.
  destruct (destroy_actors_run world w Hnd) as (r & w' & k & Heq & Hk & Hs & Hc & Hq).
  destruct Hc as [(-> & -> & Hl & Ht)|(e & Hin & Hst & [(He & -> & Hl)|(He & _)])].
  - exists w', (List.length (scene w)). split; [exact Heq|]. split; [lia|].
    split; [exact Hs|]. split; [left; auto | auto].
  - exists w', k. split; [exact Heq|]. split; [exact Hk|]. split; [exact Hs|].
    split; [right; exists e; auto|].
    intros Hq1. destruct (Hq Hq1) as (_ & Hk1 & Hl1 & _). auto.
  - rewrite (failure_in w e Hf Hin) in He. discriminate.
Qed.

Lemma destroy_actors_partial_witness :
  failures_only failing_destroy_town /\ distinct_ids failing_destroy_town /\
  exists w' k,
    destroy_actors WorldHandle failing_destroy_town = (Ok tt, w') /\
    k <= List.length (scene failing_destroy_town) /\
    scene w' = skipn k (scene failing_destroy_town) /\
    ((k = List.length (scene failing_destroy_town) /\
      sim_log w' = sim_log failing_destroy_town /\
      sim_trace w'
      = sim_trace failing_destroy_town
        ++ Called CGetActors (RSeq (List.length (scene failing_destroy_town)))
           :: destroy_calls (scene failing_destroy_town))
     \/ (exists e, In (Some e) (sim_faults failing_destroy_town) /\
                   is_Exception e = true /\
                   destroy_stopped failing_destroy_town w' k e /\
                   sim_log w' = sim_log failing_destroy_town ++ [destroy_error_line e])) /\
    (quiet (1 + List.length (scene failing_destroy_town)) failing_destroy_town ->
     k = List.length (scene failing_destroy_town) /\
     sim_log w' = sim_log failing_destroy_town).
Proof.
  assert (Hf : failures_only failing_destroy_town) by (vm_compute; reflexivity).
  assert (Hd : distinct_ids failing_destroy_town)
    by (unfold distinct_ids; vm_compute; repeat constructor; simpl; intuition discriminate).
  split; [exact Hf|]. split; [exact Hd|].
  exact (destroy_actors_partial WorldHandle failing_destroy_town Hf Hd).
Defined.

(** When no call fails, [destroy_actors] leaves no actor in the world,
    the spectator included: one [destroy()] per actor, each answering
    [True], in the order of the scene, and nothing printed. *)
Theorem destroy_actors_all world w :
  quiet (1 + List.length (scene w)) w -> distinct_ids w ->
  exists w',
    destroy_actors world w = (Ok tt, w') /\
    sim_actors w' = [] /\
    sim_log w' = sim_log w /\
    sim_trace w'
    = sim_trace w ++ Called CGetActors (RSeq (List.length (scene w)))
                  :: destroy_calls (scene w).
Proof.
  intros Hq Hnd.
  destruct (destroy_actors_run world w Hnd) as (r & w' & k & Heq & Hk & Hs & _ & Hall).
  destruct (Hall Hq) as (-> & -> & Hl & Ht).
  exists w'. split; [exact Heq|].
  split; [apply scene_empty; rewrite Hs; apply skipn_all|]. auto.
Qed.

Lemma destroy_actors_all_witness :
  quiet (1 + List.length (scene Town.one_car)) Town.one_car /\
  distinct_ids Town.one_car /\
  exists w',
    destroy_actors WorldHandle Town.one_car = (Ok tt, w') /\
    sim_actors w' = [] /\
    sim_log w' = sim_log Town.one_car /\
    sim_trace w'
    = sim_trace Town.one_car
      ++ Called CGetActors (RSeq (List.length (scene Town.one_car)))
         :: destroy_calls (scene Town.one_car).
Proof.
  assert (Hq : quiet (1 + List.length (scene Town.one_car)) Town.one_car)
    by (vm_compute; reflexivity).
  assert (Hd : distinct_ids Town.one_car)
    by (unfold distinct_ids; vm_compute; repeat constructor; simpl; intuition discriminate).
  split; [exact Hq|]. split; [exact Hd|].
  exact (destroy_actors_all WorldHandle Town.one_car Hq Hd).
Defined.

(** ** More on [connect_to_carla] *)

Ltac locate H :=
  match goal with
  | E : next_fault _ = _ |- _ =>
      revert E; unfold next_fault; chase; rewrite ?H; cbn [tl]; intros E;
      try discriminate E
  end.

(** Without the synchronous mode, a connection to the simulator makes
    three calls, returns the client, with the time-out set on it, and the
    world, and leaves the settings of the world and the output alone. *)
Theorem connect_to_carla_asynchronous host port timeout fds w :
  quiet 3 w ->
  host = cfg_host (sim_cfg w) -> port = cfg_port (sim_cfg w) ->
  exists w',
    connect_to_carla host port timeout false fds w
    = (Ok (Some (mkClient host port (Some timeout)), Some WorldHandle), w') /\
    sim_settings w' = sim_settings w /\
    sim_log w' = sim_log w /\
    scene w' = scene w /\
    sim_trace w'
    = sim_trace w ++ [Called (CClient host port) RNone;
                      Called (CSetTimeout timeout) RNone;
                      Called CGetWorld RNone].
Proof.
  unfold quiet. intros Hq -> ->. unfold connect_to_carla. monad.
  step; [quiet_absurd|].
  step; [quiet_absurd|].
  step; [quiet_absurd|].
  cbn [client_host client_port]. proj. chase.
  rewrite String.eqb_refl, Z.eqb_refl. cbn [andb].
  eexists. split; [reflexivity|].
  split; [proj; chase; reflexivity|]. split; [log_eq|]. split; [scene_eq | trace_eq].
Qed.

Lemma connect_to_carla_asynchronous_witness :
  quiet 3 Town.empty_town /\
  exists w',
    connect_to_carla "localhost" 2000 10%Q default_synchronous default_fixed_delta_seconds
                     Town.empty_town
    = (Ok (Some (mkClient "localhost" 2000 (Some 10%Q)), Some WorldHandle), w') /\
    sim_settings w' = sim_settings Town.empty_town /\
    sim_log w' = sim_log Town.empty_town /\
    scene w' = scene Town.empty_town /\
    sim_trace w'
    = sim_trace Town.empty_town ++ [Called (CClient "localhost" 2000) RNone;
                                    Called (CSetTimeout 10%Q) RNone;
                                    Called CGetWorld RNone].
Proof.
  split; [vm_compute; reflexivity|].
  apply (connect_to_carla_asynchronous "localhost" 2000 10%Q default_fixed_delta_seconds
           Town.empty_town).
  - vm_compute; reflexivity.
  - reflexivity.
  - reflexivity.
Defined.

Ltac interrupted evs :=
  eexists _, evs, _; split; [reflexivity|];
  split; [proj; chase; rewrite <- ?app_assoc; reflexivity|];
  split; [reflexivity|]; split; [reflexivity|];
  split; [log_eq | intros Hk4; first [lia | proj; chase; reflexivity]].

(** An interrupt ([KeyboardInterrupt], [SystemExit]) delivered during
    any of the calls of [connect_to_carla] is not caught: it leaves the
    function, and nothing is printed.  The settings of the world are as
    they were when it comes before the call that applies them. *)
Theorem connect_to_carla_interrupt host port timeout synchronous fds w k e rest :
  sim_faults w = interrupted_at k e rest ->
  is_Exception e = false ->
  k < connect_length synchronous ->
  host = cfg_host (sim_cfg w) -> port = cfg_port (sim_cfg w) ->
  exists w' evs c,
    connect_to_carla host port timeout synchronous fds w = (Raise e, w') /\
    sim_trace w' = sim_trace w ++ evs ++ [Failed c e] /\
    List.length evs = k /\
    forallb is_called evs = true /\
    sim_log w' = sim_log w /\
    (k < 4 -> sim_settings w' = sim_settings w).
Proof.
  unfold interrupted_at, connect_length. intros Hflt He Hk -> ->.
  unfold connect_to_carla. monad.
  assert (Hhere : String.eqb (cfg_host (sim_cfg w)) (cfg_host (sim_cfg w))
                  && Z.eqb (cfg_port (sim_cfg w)) (cfg_port (sim_cfg w)) = true)
    by (rewrite String.eqb_refl, Z.eqb_refl; reflexivity).
  set (e1 := Called (CClient (cfg_host (sim_cfg w)) (cfg_port (sim_cfg w))) RNone).
  set (e2 := Called (CSetTimeout timeout) RNone).
  set (e3 := Called CGetWorld RNone).
  set (e4 := Called CGetSettings RNone).
  destruct k as [|[|[|[|[|k]]]]]; cbn [repeat app] in Hflt.
  - step; locate Hflt. injection E as <-. rewrite He. interrupted (@nil event).
  - step; locate Hflt. step; locate Hflt. injection E0 as <-. rewrite He.
    interrupted [e1].
  - step; locate Hflt. step; locate Hflt. step; locate Hflt.
    injection E1 as <-. rewrite He. interrupted [e1; e2].
  - destruct synchronous; [|lia].
    step; locate Hflt. step; locate Hflt. step; locate Hflt.
    cbn [client_host client_port]. proj. chase. rewrite Hhere.
    step; locate Hflt. injection E2 as <-. rewrite He. interrupted [e1; e2; e3].
  - destruct synchronous; [|lia].
    step; locate Hflt. step; locate Hflt. step; locate Hflt.
    cbn [client_host client_port]. proj. chase. rewrite Hhere.
    step; locate Hflt. step; locate Hflt. injection E3 as <-. rewrite He.
    interrupted [e1; e2; e3; e4].
  - destruct synchronous; lia.
Qed.

Lemma connect_to_carla_interrupt_witness :
  sim_faults interrupted_town = interrupted_at 3 KeyboardInterrupt [] /\
  is_Exception KeyboardInterrupt = false /\
  3 < connect_length true /\
  exists w' evs c,
    connect_to_carla "localhost" 2000 10%Q true 0.05%Q interrupted_town
    = (Raise KeyboardInterrupt, w') /\
    sim_trace w' = sim_trace interrupted_town ++ evs ++ [Failed c KeyboardInterrupt] /\
    List.length evs = 3 /\
    forallb is_called evs = true /\
    sim_log w' = sim_log interrupted_town /\
    (3 < 4 -> sim_settings w' = sim_settings interrupted_town).
Proof.
  split; [reflexivity|]. split; [reflexivity|]. split; [simpl; lia|].
  apply (connect_to_carla_interrupt "localhost" 2000 10%Q true 0.05%Q interrupted_town
           3 KeyboardInterrupt []).
  - reflexivity.
  - reflexivity.
  - simpl; lia.
  - reflexivity.
  - reflexivity.
Defined.

(** ** More on [spawn_vehicle] and [spawn_vehicles] *)

Ltac choose x Hx Hne Hrng :=
  try forget_state;
  match goal with
  | |- context [@random_choice _ ?l ?W] =>
      let Heq := fresh "Heq" in
      destruct (random_choice_nth l W Hne) as (x & Heq & Hx);
      rewrite Heq; clear Heq; monad;
      revert Hx; chase; rewrite ?Hrng; cbn [hd tl]; intros Hx
  end.

(** Without a type filter ([None], or the empty string), on a world
    where no call fails, [spawn_vehicle] asks the library for the
    vehicle category, takes the blueprint, then the spawn point, at the
    positions the generator gives, and issues one strict spawn.  The
    result is the new actor, now the last of the scene; or, the place
    being taken, [None] with the collision printed and the scene as it
    was. *)
Theorem spawn_vehicle_default world vehicle_type w i j rest :
  truthy_str vehicle_type = false ->
  sim_faults w = [] ->
  sim_rng w = i :: j :: rest ->
  filter (bp_matches "vehicle") (cfg_blueprints (sim_cfg w)) <> [] ->
  cfg_spawn_points (sim_cfg w) <> [] ->
  exists b sp r w' ev,
    nth_error (filter (bp_matches "vehicle") (cfg_blueprints (sim_cfg w)))
              (i mod List.length (filter (bp_matches "vehicle") (cfg_blueprints (sim_cfg w))))
    = Some b /\
    nth_error (cfg_spawn_points (sim_cfg w))
              (j mod List.length (cfg_spawn_points (sim_cfg w))) = Some sp /\
    spawn_vehicle world vehicle_type w = (Ok r, w') /\
    sim_rng w' = rest /\
    sim_trace w'
    = sim_trace w
      ++ [Called CGetBlueprintLibrary (RSeq (List.length (cfg_blueprints (sim_cfg w))));
          Called (CFilter "vehicle")
                 (RSeq (List.length (filter (bp_matches "vehicle")
                                            (cfg_blueprints (sim_cfg w)))));
          Called CGetMap RNone;
          Called CGetSpawnPoints (RSeq (List.length (cfg_spawn_points (sim_cfg w))));
          ev] /\
    ((r = Some (mkActor (sim_next_id w) (bp_id b)) /\
      ev = Called (CSpawnActor b sp None) (RActor r) /\
      scene w' = scene w ++ [mkActor (sim_next_id w) (bp_id b)] /\
      sim_log w' = sim_log w)
     \/ (r = None /\
         ev = Failed (CSpawnActor b sp None) collision /\
         scene w' = scene w /\
         sim_log w' = sim_log w ++ [spawn_error_line collision])).
Proof.
  intros Hty Hflt Hrng Hb Hs. unfold spawn_vehicle. rewrite Hty. monad.
  step; locate Hflt.
  step; locate Hflt.
  proj. chase.
  choose b Hbp Hb Hrng.
  step; locate Hflt.
  step; locate Hflt.
  proj. chase.
  choose sp Hsp Hs Hrng.
  step; locate Hflt.
  unfold place. proj.
  destruct (cfg_collides _ _ _).
  - cbn [is_Exception]. monad.
    exists b, sp. eexists None, _, _. split; [exact Hbp|]. split; [exact Hsp|].
    split; [reflexivity|]. split; [proj; chase; rewrite ?Hrng; reflexivity|].
    split; [proj; chase; rewrite <- !app_assoc; reflexivity|].
    right. split; [reflexivity|]. split; [reflexivity|].
    split; [scene_eq | log_eq].
  - exists b, sp. eexists (Some _), _, _. split; [exact Hbp|]. split; [exact Hsp|].
    split; [reflexivity|]. split; [proj; chase; rewrite ?Hrng; reflexivity|].
    split; [proj; chase; rewrite <- !app_assoc; reflexivity|].
    left. split; [proj; chase; reflexivity|]. split; [proj; chase; reflexivity|].
    split; [|log_eq].
    unfold scene. proj. rewrite map_app, ?map_handle_move.
    repeat (progress (chase; unfold scene; rewrite ?map_handle_move)). reflexivity.
Qed.
Lemma spawn_vehicle_default_witness :
  truthy_str None = false /\
  sim_faults parked_town = [] /\
  sim_rng parked_town = [0; 0; 5] /\
  exists b sp r w' ev,
    nth_error (filter (bp_matches "vehicle") (cfg_blueprints (sim_cfg parked_town)))
              (0 mod List.length (filter (bp_matches "vehicle")
                                         (cfg_blueprints (sim_cfg parked_town))))
    = Some b /\
    nth_error (cfg_spawn_points (sim_cfg parked_town))
              (0 mod List.length (cfg_spawn_points (sim_cfg parked_town))) = Some sp /\
    spawn_vehicle WorldHandle None parked_town = (Ok r, w') /\
    sim_rng w' = [5] /\
    sim_trace w'
    = sim_trace parked_town
      ++ [Called CGetBlueprintLibrary
                 (RSeq (List.length (cfg_blueprints (sim_cfg parked_town))));
          Called (CFilter "vehicle")
                 (RSeq (List.length (filter (bp_matches "vehicle")
                                            (cfg_blueprints (sim_cfg parked_town)))));
          Called CGetMap RNone;
          Called CGetSpawnPoints
                 (RSeq (List.length (cfg_spawn_points (sim_cfg parked_town))));
          ev] /\
    ((r = Some (mkActor (sim_next_id parked_town) (bp_id b)) /\
      ev = Called (CSpawnActor b sp None) (RActor r) /\
      scene w' = scene parked_town ++ [mkActor (sim_next_id parked_town) (bp_id b)] /\
      sim_log w' = sim_log parked_town)
     \/ (r = None /\
         ev = Failed (CSpawnActor b sp None) collision /\
         scene w' = scene parked_town /\
         sim_log w' = sim_log parked_town ++ [spawn_error_line collision])).
Proof.
  split; [reflexivity|]. split; [reflexivity|]. split; [reflexivity|].
  apply (spawn_vehicle_default WorldHandle None parked_town 0 0 [5]).
  - reflexivity.
  - reflexivity.
  - reflexivity.
  - vm_compute; discriminate.
  - vm_compute; discriminate.
Defined.

(** On a map without spawn points [spawn_vehicle] returns [None]: the
    blueprint found, the choice of a spawn point fails, no spawn is
    requested, and the error of the choice is printed. *)
Theorem spawn_vehicle_no_spawn_points world vehicle_type w :
  quiet 4 w ->
  cfg_spawn_points (sim_cfg w) = [] ->
  filter (bp_matches (spawn_pattern vehicle_type)) (cfg_blueprints (sim_cfg w)) <> [] ->
  exists w',
    spawn_vehicle world vehicle_type w = (Ok None, w') /\
    scene w' = scene w /\
    sim_log w'
    = sim_log w ++ [spawn_error_line (IndexError "Cannot choose from an empty sequence")] /\
    sim_trace w'
    = sim_trace w
      ++ [Called CGetBlueprintLibrary (RSeq (List.length (cfg_blueprints (sim_cfg w))));
          Called (CFilter (spawn_pattern vehicle_type))
                 (RSeq (List.length (filter (bp_matches (spawn_pattern vehicle_type))
                                            (cfg_blueprints (sim_cfg w)))));
          Called CGetMap RNone;
          Called CGetSpawnPoints (RSeq 0)].
Proof.
  unfold quiet. intros Hq Hs Hb. unfold spawn_vehicle.
  assert (Hcases : (truthy_str vehicle_type = true /\
                    spawn_pattern vehicle_type
                    = match vehicle_type with Some t => t | None => "" end)
                   \/ (truthy_str vehicle_type = false /\
                       spawn_pattern vehicle_type = "vehicle"))
    by (destruct vehicle_type as [[|c s]|]; simpl; auto).
  destruct Hcases as [[-> Hp]|[-> Hp]]; rewrite Hp in *; clear Hp; monad.
  - step; [quiet_absurd|].
    step; [quiet_absurd|].
    proj. chase.
    destruct (filter (bp_matches _) (cfg_blueprints (sim_cfg w))) as [|b bs] eqn:Hm;
      [contradiction Hb; reflexivity|].
    monad.
    step; [quiet_absurd|].
    step; [quiet_absurd|].
    proj. chase. rewrite Hs. unfold random_choice at 1. monad.
    eexists. split; [reflexivity|]. split; [scene_eq|]. split; [log_eq|].
    proj. chase. rewrite <- !app_assoc. reflexivity.
  - step; [quiet_absurd|].
    step; [quiet_absurd|].
    proj. chase.
    draw b Hin; [contradiction Hb|].
    step; [quiet_absurd|].
    step; [quiet_absurd|].
    proj. chase. rewrite Hs. unfold random_choice at 1. monad.
    eexists. split; [reflexivity|]. split; [scene_eq|]. split; [log_eq|].
    proj. chase. rewrite <- !app_assoc. reflexivity.
Qed.

Lemma spawn_vehicle_no_spawn_points_witness :
  quiet 4 no_spawn_points /\
  cfg_spawn_points (sim_cfg no_spawn_points) = [] /\
  exists w',
    spawn_vehicle WorldHandle (Some "model3") no_spawn_points = (Ok None, w') /\
    scene w' = scene no_spawn_points /\
    sim_log w'
    = sim_log no_spawn_points
      ++ [spawn_error_line (IndexError "Cannot choose from an empty sequence")] /\
    sim_trace w'
    = sim_trace no_spawn_points
      ++ [Called CGetBlueprintLibrary
                 (RSeq (List.length (cfg_blueprints (sim_cfg no_spawn_points))));
          Called (CFilter (spawn_pattern (Some "model3")))
                 (RSeq (List.length (filter (bp_matches (spawn_pattern (Some "model3")))
                                            (cfg_blueprints (sim_cfg no_spawn_points)))));
          Called CGetMap RNone;
          Called CGetSpawnPoints (RSeq 0)].
Proof.
  split; [vm_compute; reflexivity|]. split; [reflexivity|].
  apply (spawn_vehicle_no_spawn_points WorldHandle (Some "model3") no_spawn_points).
  - vm_compute; reflexivity.
  - reflexivity.
  - vm_compute; discriminate.
Defined.

Lemma to_nat_nonpos (n : Z) : (n <= 0)%Z -> Z.to_nat n = 0.
Proof. destruct n; simpl; [reflexivity | lia | reflexivity]. Qed.

(** Asked for no vehicle, or for a negative number of them,
    [spawn_vehicles] resolves its candidates and reads the spawn points,
    by the calls of [batch_setup], and makes no other call: no spawn is
    requested, no number is drawn, nothing is printed and the scene is
    as it was. *)
Theorem spawn_vehicles_none_asked world count vehicle_types w :
  (count <= 0)%Z ->
  quiet (setup_calls vehicle_types) w ->
  all_resolve (cfg_blueprints (sim_cfg w)) vehicle_types = true ->
  exists w',
    spawn_vehicles world count vehicle_types w = (Ok tt, w') /\
    sim_trace w'
    = sim_trace w ++ batch_setup (cfg_blueprints (sim_cfg w)) vehicle_types
                                 (cfg_spawn_points (sim_cfg w)) /\
    scene w' = scene w /\
    sim_rng w' = sim_rng w /\
    sim_log w' = sim_log w.
Proof.
  unfold quiet. intros Hc Hq Hres. unfold spawn_vehicles, batch_setup, filter_call.
  rewrite (to_nat_nonpos count Hc). cbn [spawn_attempts].
  destruct vehicle_types as [[|t l]|]; cbn [truthy_list]; monad.
  - unfold setup_calls in Hq. cbn [truthy_list] in Hq.
    step; [quiet_absurd|].
    step; [quiet_absurd|].
    step; [quiet_absurd|].
    step; [quiet_absurd|].
    eexists. split; [reflexivity|]. split; [trace_eq|].
    split; [scene_eq|]. split; [proj; chase; reflexivity | log_eq].
  - unfold setup_calls in Hq. cbn [truthy_list] in Hq.
    change (3 + List.length (t :: l)) with (S (2 + List.length (t :: l))) in Hq.
    step; [quiet_absurd|].
    match goal with
    | |- context [first_matches _ _ ?W] => forget W
    end.
    proj. chase.
    match goal with
    | |- context [first_matches ?lib ?tl ?x] =>
        destruct (first_matches_quiet lib tl x)
          as (bps & w1 & -> & Hcand & Ht1 & Hl1 & Hs1 & Hr1 & Hc1 & Hflt1);
          [eapply quiet_le; [|eassumption]; lia | exact Hres |]
    end.
    assert (Hq2 : forallb is_quiet (firstn 2 (sim_faults w1)) = true)
      by (rewrite Hflt1; apply quiet_skipn; assumption).
    step; [quiet_absurd|].
    step; [quiet_absurd|].
    eexists. split; [reflexivity|].
    split; [proj; chase; unfold filter_call;
            do 3 (cbn [app]; rewrite <- ?app_assoc); reflexivity|].
    split; [scene_eq|]. split; [proj; chase; reflexivity | log_eq].
  - unfold setup_calls in Hq. cbn [truthy_list] in Hq.
    step; [quiet_absurd|].
    step; [quiet_absurd|].
    step; [quiet_absurd|].
    step; [quiet_absurd|].
    eexists. split; [reflexivity|]. split; [trace_eq|].
    split; [scene_eq|]. split; [proj; chase; reflexivity | log_eq].
Qed.

Lemma spawn_vehicles_none_asked_witness :
  (-2 <= 0)%Z /\
  quiet (setup_calls (Some ["model3"])) Town.empty_town /\
  all_resolve (cfg_blueprints (sim_cfg Town.empty_town)) (Some ["model3"]) = true /\
  exists w',
    spawn_vehicles WorldHandle (-2) (Some ["model3"]) Town.empty_town = (Ok tt, w') /\
    sim_trace w'
    = sim_trace Town.empty_town
      ++ batch_setup (cfg_blueprints (sim_cfg Town.empty_town)) (Some ["model3"])
                     (cfg_spawn_points (sim_cfg Town.empty_town)) /\
    scene w' = scene Town.empty_town /\
    sim_rng w' = sim_rng Town.empty_town /\
    sim_log w' = sim_log Town.empty_town.
Proof.
  split; [lia|].
  split; [vm_compute; reflexivity|]. split; [vm_compute; reflexivity|].
  apply (spawn_vehicles_none_asked WorldHandle (-2) (Some ["model3"]) Town.empty_town).
  - lia.
  - vm_compute; reflexivity.
  - vm_compute; reflexivity.
Defined.

(** ** More on [follow_vehicle] *)









(** On that town the call does end: the failure of the eighth call
    stops the loop in its first turn and is printed. *)
Lemma follow_vehicle_lost_camera :
  exists w',
    follow_vehicle 3 WorldHandle (handle Town.car) None lost_camera_town = Some (Ok tt, w') /\
    sim_log w'
    = [follow_error_line (RuntimeError "trying to operate on a destroyed actor")].
Proof. eexists. split; vm_compute; reflexivity. Qed.
